(** * goloadbalancer: backend pool, selection policies and request forwarding

    A shallow embedding of the load balancer's core (errors.go, the listener
    file and the server file) together with the properties of its
    specification that can be settled on it.

    Conventions of the embedding:
    - Go's [int] is a [Z]; where the code does arithmetic on it the 64-bit
      wrap-around is written out ([int_add]) and [%] is the truncated
      remainder [Z.rem].
    - A call either returns or panics ([run]); functions returning
      [(T, error)] return a sum inside [run].
    - [*sync.WaitGroup] is an [option Z]: [None] is the nil pointer, [Some n]
      an initialised group whose counter is [n].
    - [http.Header] is a finite map from header names to value lists.
    - Library functions of Go that the code calls ([net.SplitHostPort],
      [net.ParseIP], [strconv.Atoi], [http.Client.Do], ...) are section
      variables: every theorem holds whatever they compute.
    - One goroutine at a time: [Listener.healthcheck], [Server.healthcheck]
      and [Server.Start], which only run beside the dispatcher, and the log
      output are left out. *)

From Stdlib Require Import ZArith Lia Bool Ascii String DecimalString.
From stdpp Require Import gmap strings list.

Open Scope string_scope.
Open Scope Z_scope.

#[local] Set Warnings "-clear-no-such-hyp".

(** ** Outcomes of a call *)

Inductive run (A : Type) : Type :=
| Done (a : A)
| Panics (reason : string).
Arguments Done {A} a.
Arguments Panics {A} reason.

#[global] Instance run_ret : MRet run := fun A a => Done a.
#[global] Instance run_bind : MBind run := fun A B k m =>
  match m with
  | Done a => k a
  | Panics r => Panics r
  end.

(** The run-time error of a method call through a nil pointer. *)
Definition nil_dereference : string :=
  "invalid memory address or nil pointer dereference".

(** ** errors.go *)

Inductive error : Type :=
| ErrServerCreate (reason : string)
| ErrServerStopped
| ErrServerGenericError (reason : string)
| ErrListenerCreate (reason : string).

Definition Error (e : error) : string :=
  match e with
  | ErrServerCreate reason => "error creating server: " +:+ reason
  | ErrServerStopped => "server is stopped"
  | ErrServerGenericError reason => "server error: " +:+ reason
  | ErrListenerCreate reason => "error creating listener: " +:+ reason
  end.

(** ** Go integers and slices *)

Definition int_wrap (z : Z) : Z := (z + 2 ^ 63) mod 2 ^ 64 - 2 ^ 63.
Definition int_add (a b : Z) : Z := int_wrap (a + b).

(** [a % b]: a run-time panic when [b] is zero. *)
Definition int_rem (a b : Z) : run Z :=
  if b =? 0 then Panics "integer divide by zero" else Done (Z.rem a b).

Definition len {A : Type} (l : list A) : Z := Z.of_nat (length l).

(** [l[i]]: a run-time panic when [i] is out of range. *)
Definition index {A : Type} (l : list A) (i : Z) : run A :=
  if (0 <=? i) && (i <? len l) then
    match l !! Z.to_nat i with
    | Some a => Done a
    | None => Panics "index out of range"
    end
  else Panics "index out of range".

(** ** Listener *)

Definition UUID := string.           (* a uuid.UUID, through its String() *)
Definition IP := list Byte.byte.     (* net.IP *)

Record ListenerHealthCheckConfig : Type := {
  port : Z;
  path : string;
  timeout : Z
}.

Record Listener : Type := {
  id_ : UUID;
  targetIp : IP;
  targetPort : Z;
  healthCheckConfig : option ListenerHealthCheckConfig;
  weight : Z;
  wg : option Z
}.

Definition ListenerConfig := Listener -> Listener.

Definition WithListenerHealthCheck (port : Z) (path : string) (timeout : Z)
  : ListenerConfig :=
  fun l =>
    {| id_ := id_ l; targetIp := targetIp l; targetPort := targetPort l;
       healthCheckConfig :=
         Some {| port := port; path := path; timeout := timeout |};
       weight := weight l; wg := wg l |}.

Definition WithWeight (weight0 : Z) : ListenerConfig :=
  let weight1 :=
    if weight0 <? 0 then 0
    else if weight0 >? 100 then 100
    else weight0 in
  fun l =>
    {| id_ := id_ l; targetIp := targetIp l; targetPort := targetPort l;
       healthCheckConfig := healthCheckConfig l;
       weight := weight1; wg := wg l |}.

(** The options the package offers for [NewListener]. *)
Inductive provided_config : ListenerConfig -> Prop :=
| provided_health port path timeout :
    provided_config (WithListenerHealthCheck port path timeout)
| provided_weight w :
    provided_config (WithWeight w).

(** [for _, c := range config { c(l) }] *)
Definition apply_configs (config : list ListenerConfig) (l : Listener)
  : Listener :=
  fold_left (fun l c => c l) config l.

Section NewListener.
(** [net.SplitHostPort], [net.ParseIP] (nil is [None]) and [strconv.Atoi];
    [None] is the error result. *)
Variable SplitHostPort : string -> option (string * string).
Variable ParseIP : string -> option IP.
Variable Atoi : string -> option Z.

(** [fresh] is the value [uuid.New()] draws. *)
Definition NewListener (fresh : UUID) (targetAddr : string)
    (config : list ListenerConfig) : Listener + error :=
  match SplitHostPort targetAddr with
  | None =>
      inr (ErrListenerCreate ("unable to parse address " +:+ targetAddr))
  | Some (ip, port) =>
      match ParseIP ip with
      | None =>
          inr (ErrListenerCreate ("unable to parse IP address " +:+ ip))
      | Some parsedIp =>
          match Atoi port with
          | None =>
              inr (ErrListenerCreate
                     ("unable to convert port " +:+ port
                      +:+ " from string to int"))
          | Some parsedPort =>
              let l := {| id_ := fresh; targetIp := parsedIp;
                          targetPort := parsedPort;
                          healthCheckConfig := None;
                          weight := 1; wg := None |} in
              inl (apply_configs config l)
          end
      end
  end.
End NewListener.

(** ** Balancing algorithms *)

(** The global source of [math/rand]: the sequence of raw draws still to
    come.  [Intn n] panics for [n <= 0] and otherwise returns a value of
    [[0, n)], here the next draw reduced modulo [n]. *)
Definition Source := nat -> Z.

Definition Intn (src : Source) (n : Z) : run (Z * Source) :=
  if n <=? 0 then Panics "invalid argument to Intn"
  else Done (src O mod n, fun k => src (S k)).

(** A [BalancingAlgorithm] is one of the three closures the package builds;
    [RoundRobin i] carries the current value of its captured variable. *)
Inductive BalancingAlgorithm : Type :=
| Random
| RoundRobin (i : Z)
| WeightedRoundRobin.

(** [flatSlice] of [WeightedRoundRobin]: index [i] repeated [weight] times. *)
Fixpoint flatten_from (i : Z) (listeners : list Listener) : list Z :=
  match listeners with
  | [] => []
  | listener :: rest =>
      replicate (Z.to_nat (weight listener)) i ++ flatten_from (i + 1) rest
  end.

Definition flatSlice (listeners : list Listener) : list Z :=
  flatten_from 0 listeners.

(** The call [b(listeners)]: the listener chosen, the closure afterwards and
    what is left of the random source. *)
Definition call (b : BalancingAlgorithm) (src : Source)
    (listeners : list Listener)
  : run (Listener * BalancingAlgorithm * Source) :=
  match b with
  | Random =>
      '(k, src') ← Intn src (len listeners);
      l ← index listeners k;
      Done (l, Random, src')
  | RoundRobin i =>
      i' ← int_rem (int_add i 1) (len listeners);
      l ← index listeners i';
      Done (l, RoundRobin i', src)
  | WeightedRoundRobin =>
      let flat := flatSlice listeners in
      '(k, src') ← Intn src (len flat);
      j ← index flat k;
      l ← index listeners j;
      Done (l, WeightedRoundRobin, src')
  end.

Definition pickListener (b : BalancingAlgorithm) (src : Source)
    (listeners : list Listener)
  : run (Listener * BalancingAlgorithm * Source + error) :=
  if len listeners =? 0 then
    Done (inr (ErrServerGenericError "no listeners available"))
  else
    r ← call b src listeners;
    Done (inl r).

Definition DefaultBalancingAlgorithm : BalancingAlgorithm := Random.

(** ** net/http, as far as the handlers use it *)

Abbreviation http_Header := (gmap string (list string)).

(** [h.Get(key)]: the first value stored under [key], [""] when there is
    none.  The two keys the code uses are already in canonical form. *)
Definition Get (h : http_Header) (key : string) : string :=
  match h !! key with
  | Some (v :: _) => v
  | _ => ""
  end.

(** [h.Set(key, value)]: replaces whatever was stored under [key]. *)
Definition Set_ (h : http_Header) (key value : string) : http_Header :=
  <[key := [value]]> h.

Record Request : Type := {
  Method : string;
  URL : string;
  Body : string;
  Header : http_Header;
  RemoteAddr : string;
  Host : string
}.

Record Response : Type := {
  StatusCode : Z;
  RespBody : string
}.

Definition StatusOK : Z := 200.
Definition StatusInternalServerError : Z := 500.
Definition StatusBadGateway : Z := 502.
Definition StatusServiceUnavailable : Z := 503.

(** An [http.ResponseWriter]: whether the status line went out, with which
    code, and the body bytes written so far. *)
Record ResponseWriter : Type := {
  wroteHeader : bool;
  status : Z;
  written : string
}.

Definition newResponseWriter : ResponseWriter :=
  {| wroteHeader := false; status := 0; written := "" |}.

(** [w.WriteHeader(code)]: only the first call counts. *)
Definition WriteHeader (w : ResponseWriter) (code : Z) : ResponseWriter :=
  if wroteHeader w then w
  else {| wroteHeader := true; status := code; written := written w |}.

(** [w.Write(data)]: sends status 200 first when no status went out yet. *)
Definition Write (w : ResponseWriter) (data : string) : ResponseWriter :=
  let w := WriteHeader w StatusOK in
  {| wroteHeader := wroteHeader w; status := status w;
     written := written w +:+ data |}.

(** [http.Error(w, msg, code)] *)
Definition http_Error (w : ResponseWriter) (msg : string) (code : Z)
  : ResponseWriter :=
  Write (WriteHeader w code) (msg +:+ String "010"%char "").

(** [io.Copy(w, body)]: nothing is written for an empty body. *)
Definition io_Copy (w : ResponseWriter) (body : string) : ResponseWriter :=
  if String.eqb body "" then w else Write w body.

(** What the client receives once the handler has returned: the server
    sends status 200 when the handler never wrote one. *)
Definition client_status (w : ResponseWriter) : Z :=
  if wroteHeader w then status w else StatusOK.

Definition client_body (w : ResponseWriter) : string := written w.

(** ** sync.WaitGroup through a possibly nil pointer *)

Definition wg_Add (g : option Z) (delta : Z) : run (option Z) :=
  match g with
  | None => Panics nil_dereference
  | Some n =>
      if n + delta <? 0 then Panics "sync: negative WaitGroup counter"
      else Done (Some (n + delta))
  end.

Definition wg_Done (g : option Z) : run (option Z) := wg_Add g (-1).

Definition with_wg (l : Listener) (g : option Z) : Listener :=
  {| id_ := id_ l; targetIp := targetIp l; targetPort := targetPort l;
     healthCheckConfig := healthCheckConfig l; weight := weight l; wg := g |}.

(** ** Listener.handle *)

Fixpoint contains_byte (c : Ascii.ascii) (s : string) : bool :=
  match s with
  | EmptyString => false
  | String a rest => if Ascii.eqb a c then true else contains_byte c rest
  end.

(** [net.JoinHostPort] *)
Definition JoinHostPort (host port : string) : string :=
  if contains_byte ":"%char host || contains_byte "%"%char host
  then "[" +:+ host +:+ "]:" +:+ port
  else host +:+ ":" +:+ port.

(** What one call of [Listener.handle] leaves behind. *)
Record Handled : Type := {
  writer : ResponseWriter;      (* the response written to the client *)
  sent : list Request;          (* requests handed to [httpClient.Do] *)
  inbound : Request;            (* the inbound request afterwards *)
  after : Listener              (* the listener afterwards *)
}.

Section Forwarding.
(** [net.SplitHostPort]; [net.IP.String]; [strconv.Itoa]; for
    [http.NewRequest(method, url, body)] the host of the parsed URL, or
    [None] when it returns an error; [httpClient.Do], [None] when it
    returns an error. *)
Variable SplitHostPort : string -> option (string * string).
Variable IP_String : IP -> string.
Variable Itoa : Z -> string.
Variable NewRequest_host : string -> string -> option string.
Variable Do : Request -> option Response.

Definition getTargetAddr (l : Listener) : string :=
  JoinHostPort (IP_String (targetIp l)) (Itoa (targetPort l)).

Definition http_NewRequest (method url body : string) : option Request :=
  let method := if String.eqb method "" then "GET" else method in
  match NewRequest_host method url with
  | None => None
  | Some host =>
      Some {| Method := method; URL := url; Body := body; Header := ∅;
              RemoteAddr := ""; Host := host |}
  end.

Definition with_header (r : Request) (h : http_Header) : Request :=
  {| Method := Method r; URL := URL r; Body := Body r; Header := h;
     RemoteAddr := RemoteAddr r; Host := Host r |}.

(** The body of [handle] between [wg.Add(1)] and the deferred
    [wg.Done()].  After [proxyReq.Header = r.Header] both requests share
    one map, so every [Set] shows in both: the map is threaded as [h] and
    stored back into both requests. *)
Definition handle_body (l : Listener) (w : ResponseWriter) (r : Request)
  : ResponseWriter * list Request * Request :=
  match http_NewRequest (Method r) ("http://" +:+ getTargetAddr l) (Body r)
  with
  | None =>
      (http_Error w "unable to create forwarded request"
         StatusInternalServerError, [], r)
  | Some proxyReq =>
      let h := Header r in
      let h :=
        if negb (String.eqb (Get h "X-Forwarded-For") "") then
          Set_ h "X-Forwarded-For"
            (Get h "X-Forwarded-For" +:+ "," +:+ RemoteAddr r)
        else
          Set_ h "X-Forwarded-For" (RemoteAddr r) in
      match SplitHostPort (Host r) with
      | None =>
          (http_Error w "unable to create forwarded request"
             StatusInternalServerError, [], with_header r h)
      | Some (_, connectedLoadBalancerPort) =>
          let h := Set_ h "X-Forwarded-Port" connectedLoadBalancerPort in
          let proxyReq := with_header proxyReq h in
          match Do proxyReq with
          | None =>
              (http_Error w "error forwarding request"
                 StatusInternalServerError, [proxyReq], with_header r h)
          | Some resp =>
              (io_Copy w (RespBody resp), [proxyReq], with_header r h)
          end
      end
  end.

Definition Listener_handle (l : Listener) (w : ResponseWriter) (r : Request)
  : run Handled :=
  g ← wg_Add (wg l) 1;
  let '(w', out, r') := handle_body l w r in
  g' ← wg_Done g;
  Done {| writer := w'; sent := out; inbound := r'; after := with_wg l g' |}.
End Forwarding.

(** ** Server *)

Record Server : Type := {
  listeners : list Listener;
  unhealthyListeners : gmap string bool;   (* a nil map reads as the empty one *)
  ip : IP;
  stopped : bool;
  balancingAlgorithm : BalancingAlgorithm
}.

(** [s.unhealthyListeners[id]]: [false] for a missing key. *)
Definition unhealthy (s : Server) (id : UUID) : bool :=
  default false (unhealthyListeners s !! id).

Definition AddListener (s : Server) (listener : Listener) : Server :=
  {| listeners := listeners s ++ [listener];
     unhealthyListeners := unhealthyListeners s; ip := ip s;
     stopped := stopped s; balancingAlgorithm := balancingAlgorithm s |}.

Definition store_stopped (s : Server) (v : bool) : Server :=
  {| listeners := listeners s; unhealthyListeners := unhealthyListeners s;
     ip := ip s; stopped := v; balancingAlgorithm := balancingAlgorithm s |}.

Definition with_algorithm (s : Server) (b : BalancingAlgorithm) : Server :=
  {| listeners := listeners s; unhealthyListeners := unhealthyListeners s;
     ip := ip s; stopped := stopped s; balancingAlgorithm := b |}.

(** How a call of [Stop] ends: it returns, it panics, or it stays parked in
    [wg.Wait()] on a counter that is not zero (no other goroutine runs in
    this model). *)
Inductive stop_end : Type :=
| StopReturns (err : option error)
| StopPanics (reason : string)
| StopWaits.

(** [for _, listener := range s.listeners { listener.wg.Wait() }]: the
    listeners whose [Wait] was called, in order, and how the loop ends. *)
Fixpoint wait_all (ls : list Listener) : list UUID * stop_end :=
  match ls with
  | [] => ([], StopReturns None)
  | listener :: rest =>
      match wg listener with
      | None =>
          ([id_ listener], StopPanics nil_dereference)
      | Some n =>
          if n =? 0 then
            let '(waited, e) := wait_all rest in (id_ listener :: waited, e)
          else ([id_ listener], StopWaits)
      end
  end.

Record Stopping : Type := {
  server : Server;          (* the server afterwards *)
  drained : list UUID;      (* listeners whose counter was waited on *)
  ending : stop_end
}.

Definition Stop (s : Server) : Stopping :=
  if stopped s then
    {| server := s; drained := []; ending := StopReturns (Some ErrServerStopped) |}
  else
    let s := store_stopped s true in
    let '(waited, e) := wait_all (listeners s) in
    {| server := s; drained := waited; ending := e |}.

(** The selection loop of [Server.handle]
    [for listener == nil || s.unhealthyListeners[listener.id.String()]].
    [fuel] bounds the number of iterations; [None] means the loop was still
    running when the fuel ran out. *)
Definition loop_condition (s : Server) (listener : option Listener) : bool :=
  match listener with
  | None => true
  | Some l => unhealthy s (id_ l)
  end.

Fixpoint select_loop (fuel : nat) (s : Server) (b : BalancingAlgorithm)
    (src : Source) (listener : option Listener)
  : option (run (option Listener * BalancingAlgorithm * Source + error)) :=
  if loop_condition s listener then
    match fuel with
    | O => None
    | S fuel' =>
        match pickListener b src (listeners s) with
        | Panics reason => Some (Panics reason)
        | Done (inr err) => Some (Done (inr err))
        | Done (inl (selected, b', src')) =>
            select_loop fuel' s b' src' (Some selected)
        end
    end
  else Some (Done (inl (listener, b, src))).

(** What one call of [Server.handle] leaves behind. *)
Record Served : Type := {
  response : ResponseWriter;
  forwarded : list Request;
  chosen : option Listener;
  server_after : Server;
  source_after : Source
}.

Section Dispatch.
Variable SplitHostPort : string -> option (string * string).
Variable IP_String : IP -> string.
Variable Itoa : Z -> string.
Variable NewRequest_host : string -> string -> option string.
Variable Do : Request -> option Response.

Definition Server_handle (fuel : nat) (s : Server) (src : Source)
    (w : ResponseWriter) (r : Request) : option (run Served) :=
  if stopped s then
    Some (Done {| response := http_Error w "server is stopped"
                                StatusServiceUnavailable;
                  forwarded := []; chosen := None;
                  server_after := s; source_after := src |})
  else
    match select_loop fuel s (balancingAlgorithm s) src None with
    | None => None
    | Some (Panics reason) => Some (Panics reason)
    | Some (Done (inr err)) =>
        Some (Done {| response := http_Error w "load balancer internal error"
                                    StatusServiceUnavailable;
                      forwarded := []; chosen := None;
                      server_after := s; source_after := src |})
    | Some (Done (inl (None, _, _))) =>
        Some (Panics nil_dereference)
    | Some (Done (inl (Some listener, b', src'))) =>
        Some (h ← Listener_handle SplitHostPort IP_String Itoa
                     NewRequest_host Do listener w r;
              Done {| response := writer h; forwarded := sent h;
                      chosen := Some listener;
                      server_after := with_algorithm s b';
                      source_after := src' |})
    end.
End Dispatch.

(** ** Executable models of the library calls, for running the embedding

    The theorems below hold for any behaviour of the library; the examples
    run the handlers on concrete inputs and need the calls to compute.
    [ParseIP] and [IP_String] cover dotted-decimal IPv4 addresses only. *)
Module GoLib.

Fixpoint index_byte (c : ascii) (s : string) : option nat :=
  match s with
  | EmptyString => None
  | String a rest =>
      if Ascii.eqb a c then Some O else S <$> index_byte c rest
  end.

Fixpoint last_index_byte (c : ascii) (s : string) : option nat :=
  match s with
  | EmptyString => None
  | String a rest =>
      match last_index_byte c rest with
      | Some k => Some (S k)
      | None => if Ascii.eqb a c then Some O else None
      end
  end.

Definition take (n : nat) (s : string) : string := substring 0 n s.
Definition drop (n : nat) (s : string) : string :=
  substring n (String.length s - n) s.

(** [net.SplitHostPort] *)
Definition SplitHostPort (hostport : string) : option (string * string) :=
  match last_index_byte ":" hostport with
  | None => None                                   (* missing port *)
  | Some i =>
      let bracketed :=
        match hostport with
        | String "[" _ =>
            match index_byte "]" hostport with
            | None => None                         (* missing ']' *)
            | Some e =>
                if (e + 1 =? i)%nat
                then Some (substring 1 (e - 1) hostport, 1%nat, (e + 1)%nat)
                else None
            end
        | _ =>
            let host := take i hostport in
            if contains_byte ":" host then None    (* too many colons *)
            else Some (host, O, O)
        end in
      match bracketed with
      | None => None
      | Some (host, j, k) =>
          if contains_byte "[" (drop j hostport) then None
          else if contains_byte "]" (drop k hostport) then None
          else Some (host, drop (i + 1) hostport)
      end
  end.

Definition digit (c : ascii) : option Z :=
  let n := Z.of_nat (nat_of_ascii c) in
  if (48 <=? n) && (n <=? 57) then Some (n - 48) else None.

Fixpoint digits (acc : Z) (s : string) : option Z :=
  match s with
  | EmptyString => Some acc
  | String c rest =>
      match digit c with
      | Some d => digits (10 * acc + d) rest
      | None => None
      end
  end.

Definition decimal (s : string) : option Z :=
  match s with
  | EmptyString => None
  | _ => digits 0 s
  end.

(** [strconv.Atoi] *)
Definition Atoi (s : string) : option Z :=
  let signed :=
    match s with
    | String "-" rest => (fun z => - z) <$> decimal rest
    | String "+" rest => decimal rest
    | _ => decimal s
    end in
  match signed with
  | Some z => if (- 2 ^ 63 <=? z) && (z <? 2 ^ 63) then Some z else None
  | None => None
  end.

(** [strconv.Itoa] *)
Definition Itoa (z : Z) : string :=
  DecimalString.NilZero.string_of_int (Z.to_int z).

Fixpoint fields (c : ascii) (cur : string) (s : string) : list string :=
  match s with
  | EmptyString => [cur]
  | String a rest =>
      if Ascii.eqb a c then cur :: fields c "" rest
      else fields c (cur +:+ String a "") rest
  end.

Definition octet (s : string) : option Byte.byte :=
  match s with
  | String "0" (String _ _) => None                (* leading zero *)
  | _ =>
      match decimal s with
      | Some z => if z <=? 255 then Byte.of_N (Z.to_N z) else None
      | None => None
      end
  end.

Definition v4InV6Prefix : list Byte.byte :=
  replicate 10 Byte.x00 ++ [Byte.xff; Byte.xff].

(** [net.ParseIP], dotted-decimal IPv4 only. *)
Definition ParseIP (s : string) : option IP :=
  match octet <$> fields "." "" s with
  | [Some a; Some b; Some c; Some d] => Some (v4InV6Prefix ++ [a; b; c; d])%list
  | _ => None
  end.

Definition byte_dec (b : Byte.byte) : string := Itoa (Z.of_N (Byte.to_N b)).

(** [net.IP.String], for the addresses [ParseIP] returns. *)
Definition IP_String (a : IP) : string :=
  match skipn 12 a with
  | [a; b; c; d] =>
      byte_dec a +:+ "." +:+ byte_dec b +:+ "." +:+ byte_dec c
      +:+ "." +:+ byte_dec d
  | _ => "?"
  end.

(** [http.NewRequest] accepts every method and URL the examples use; the
    host is what follows the scheme. *)
Definition NewRequest_host (method url : string) : option string :=
  Some (drop 7 url).

End GoLib.

(** ** Repeated selection *)

(** [n] consecutive calls of [pickListener] on the same slice: each
    listener returned together with the closure as the call left it. *)
Fixpoint picks (n : nat) (b : BalancingAlgorithm) (src : Source)
    (ls : list Listener)
  : run (list (Listener * BalancingAlgorithm) + error) :=
  match n with
  | O => Done (inl [])
  | S n' =>
      r ← pickListener b src ls;
      match r with
      | inr err => Done (inr err)
      | inl (l, b', src') =>
          rest ← picks n' b' src' ls;
          match rest with
          | inr err => Done (inr err)
          | inl chosen => Done (inl ((l, b') :: chosen))
          end
      end
  end.

(** ** Health checks *)

(** The [err] of a probe: the error [http.NewRequest] returned, the error
    [httpClient.Do] returned (values of the library, kept abstract), or the
    one [fmt.Errorf] builds from the status code. *)
Inductive probe_error : Type :=
| RequestError
| TransportError
| StatusError (message : string).

Record ListenerHealthcheckResponse : Type := {
  err : option probe_error;
  hstatus : string                       (* the field [status] *)
}.

Section Probing.
Variable IP_String : IP -> string.
Variable Itoa : Z -> string.
Variable NewRequest_host : string -> string -> option string.
Variable Do : Request -> option Response.

(** [fmt.Sprintf("http://%s:%d%s", ip, port, path)] *)
Definition healthcheck_url (l : Listener) (c : ListenerHealthCheckConfig)
  : string :=
  "http://" +:+ IP_String (targetIp l) +:+ ":" +:+ Itoa (port c) +:+ path c.

(** [Listener.healthcheck]: the response and the requests handed to
    [httpClient.Do]. *)
Definition Listener_healthcheck (l : Listener)
  : ListenerHealthcheckResponse * list Request :=
  match healthCheckConfig l with
  | None => ({| hstatus := "OK"; err := None |}, [])
  | Some c =>
      match http_NewRequest NewRequest_host "GET" (healthcheck_url l c) ""
      with
      | None => ({| hstatus := "ERROR"; err := Some RequestError |}, [])
      | Some req =>
          match Do req with
          | None =>
              ({| hstatus := "ERROR"; err := Some TransportError |}, [req])
          | Some resp =>
              if negb (StatusCode resp =? StatusOK) then
                ({| hstatus := "ERROR";
                    err := Some (StatusError
                                   ("healthcheck failed with status "
                                    +:+ Itoa (StatusCode resp))) |}, [req])
              else ({| hstatus := "OK"; err := None |}, [req])
          end
      end
  end.
End Probing.

(** A Go [map[string]bool] value: [None] is the nil map. *)
Abbreviation gomap := (option (gmap string bool)).

(** [m[key]]: [false] for a missing key and for the nil map. *)
Definition map_index (m : gomap) (key : string) : bool :=
  match m with
  | None => false
  | Some entries => default false (entries !! key)
  end.

(** [m[key] = v]: a run-time panic on the nil map. *)
Definition map_assign (m : gomap) (key : string) (v : bool) : run gomap :=
  match m with
  | None => Panics "assignment to entry in nil map"
  | Some entries => Done (Some (<[key := v]> entries))
  end.

(** [delete(m, key)]: a no-op on the nil map. *)
Definition map_delete (m : gomap) (key : string) : gomap :=
  delete key <$> m.

Section ProbeTask.
Variable IP_String : IP -> string.
Variable Itoa : Z -> string.
Variable NewRequest_host : string -> string -> option string.
Variable Do : Request -> option Response.

(** The body of the goroutine [Server.healthcheck] starts for [listener],
    run on the map [m] it finds in [s.unhealthyListeners]: the map
    afterwards and the requests sent. *)
Definition healthcheck_task (m : gomap) (listener : Listener)
  : run gomap * list Request :=
  let '(response, out) :=
    Listener_healthcheck IP_String Itoa NewRequest_host Do listener in
  (match err response with
   | Some _ => map_assign m (id_ listener) true
   | None => Done (map_delete m (id_ listener))
   end, out).
End ProbeTask.

(** [Server.healthcheck] itself only starts goroutines: the listeners it
    starts one for, in order.  Each goroutine probes the listener of its own
    iteration (the per-iteration loop variable of Go 1.22 and later). *)
Definition Server_healthcheck (s : Server) : list Listener :=
  if len (listeners s) =? 0 then [] else listeners s.

(** The server once [s.unhealthyListeners] holds the map [m]. *)
Definition store_unhealthy (s : Server) (m : gomap) : Server :=
  {| listeners := listeners s; unhealthyListeners := default ∅ m;
     ip := ip s; stopped := stopped s;
     balancingAlgorithm := balancingAlgorithm s |}.

(** ** NewServer *)

(** The [Server] struct with its nil-able fields told apart: a nil map from
    an allocated one, a nil algorithm from a set one.  [Server] above is the
    same struct as the dispatcher reads it. *)
Module Struct.
Record Server : Type := {
  listeners : list Listener;
  unhealthyListeners : gomap;
  ip : IP;
  stopped : bool;
  balancingAlgorithm : option BalancingAlgorithm
}.
End Struct.

Definition ServerConfig := Struct.Server -> Struct.Server.

Definition WithBalancingAlgorithm (b : option BalancingAlgorithm)
  : ServerConfig :=
  fun s =>
    {| Struct.listeners := Struct.listeners s;
       Struct.unhealthyListeners := Struct.unhealthyListeners s;
       Struct.ip := Struct.ip s; Struct.stopped := Struct.stopped s;
       Struct.balancingAlgorithm := b |}.

(** The option the package offers for [NewServer]. *)
Inductive provided_server_config : ServerConfig -> Prop :=
| provided_algorithm b : provided_server_config (WithBalancingAlgorithm b).

Section NewServer.
Variable SplitHostPort : string -> option (string * string).
Variable ParseIP : string -> option IP.

Definition NewServer (addr : string) (config : list ServerConfig)
  : Struct.Server + error :=
  match SplitHostPort addr with
  | None =>
      inr (ErrServerCreate ("unable to parse host port address " +:+ addr))
  | Some (ip, _) =>
      match ParseIP ip with
      | None => inr (ErrServerCreate ("unable to parse ip " +:+ ip))
      | Some parsedIp =>
          let s := {| Struct.listeners := []; Struct.unhealthyListeners := None;
                      Struct.ip := parsedIp; Struct.stopped := false;
                      Struct.balancingAlgorithm := None |} in
          let s := fold_left (fun s c => c s) config s in
          let s :=
            match Struct.balancingAlgorithm s with
            | None => WithBalancingAlgorithm (Some DefaultBalancingAlgorithm) s
            | Some _ => s
            end in
          inl s
      end
  end.
End NewServer.

(** The struct as [AddListener], [Stop] and [handle] use it; [None] while
    the algorithm is nil. *)
Definition dispatching (s : Struct.Server) : option Server :=
  match Struct.balancingAlgorithm s with
  | None => None
  | Some b =>
      Some {| listeners := Struct.listeners s;
              unhealthyListeners := default ∅ (Struct.unhealthyListeners s);
              ip := Struct.ip s; stopped := Struct.stopped s;
              balancingAlgorithm := b |}
  end.

(** ** Start *)

(** What a call of [Start] did: the probe rounds it ran (the goroutines
    started in each) and the error it returned. *)
Record Started : Type := {
  rounds : list (list Listener);
  start_error : option error
}.

(** [for !s.stopped.Load() { s.healthcheck(); time.Sleep(...) }].  Other
    goroutines change the server while [Start] runs: [observe k] is the
    server as the [k]-th access of [Start] finds it.  The loop condition is
    access [k], the probe round access [k + 1]; [None] means the loop was
    still running when the fuel ran out. *)
Fixpoint Start_loop (fuel : nat) (observe : nat -> Server) (k : nat)
  : option (list (list Listener)) :=
  if negb (stopped (observe k)) then
    match fuel with
    | O => None
    | S fuel' =>
        (fun rest => Server_healthcheck (observe (S k)) :: rest)
          <$> Start_loop fuel' observe (S (S k))
    end
  else Some [].

Definition Start (fuel : nat) (observe : nat -> Server) : option Started :=
  if stopped (observe O) then
    Some {| rounds := []; start_error := Some ErrServerStopped |}
  else
    (fun r => {| rounds := r; start_error := None |})
      <$> Start_loop fuel observe 1.

(** ** Observations on a call *)

(** Whether a call that may still be running ([None]) has returned. *)
Definition answered {A : Type} (o : option (run A)) : bool :=
  match o with
  | Some (Done _) => true
  | _ => false
  end.

(** States in which a call of the algorithm cannot panic: the round-robin
    cursor is one a Go [int] reaches by counting up from 0, and the weighted
    policy has at least one entry in its flattened slice. *)
Definition sound_for (b : BalancingAlgorithm) (ls : list Listener) : Prop :=
  match b with
  | Random => True
  | RoundRobin i => 0 <= i < 2 ^ 63 - 1
  | WeightedRoundRobin => flatSlice ls <> []
  end.

(** The value [Listener.handle] stores under [X-Forwarded-For]. *)
Definition forwarded_for (r : Request) : string :=
  if negb (String.eqb (Get (Header r) "X-Forwarded-For") "")
  then Get (Header r) "X-Forwarded-For" +:+ "," +:+ RemoteAddr r
  else RemoteAddr r.

(** The reading of the port contract with a bad-gateway status: when the
    port of the [Host] header cannot be split off, the handler returns with
    status 502 and forwards nothing. *)
Definition unparsable_port_is_bad_gateway
    (SplitHostPort : string -> option (string * string))
    (IP_String : IP -> string) (Itoa : Z -> string)
    (NewRequest_host : string -> string -> option string)
    (Do : Request -> option Response)
    (l : Listener) (w : ResponseWriter) (r : Request) : Prop :=
  SplitHostPort (Host r) = None ->
  exists h,
    Listener_handle SplitHostPort IP_String Itoa NewRequest_host Do l w r
    = Done h
    /\ sent h = []
    /\ client_status (writer h) = StatusBadGateway.


(** ** Inputs for the examples *)

(** The listener [NewListener("127.0.0.1:8082")] returns. *)
Definition example_listener : Listener :=
  {| id_ := "6ba7b810-9dad-11d1-80b4-00c04fd430c8";
     targetIp := default [] (GoLib.ParseIP "127.0.0.1");
     targetPort := 8082;
     healthCheckConfig := None; weight := 1; wg := None |}.

(** The same listener once its wait group points to a group at rest. *)
Definition example_ready : Listener := with_wg example_listener (Some 0).

(** A running server with this listener registered and marked unhealthy. *)
Definition example_server (l : Listener) (b : BalancingAlgorithm) : Server :=
  AddListener
    {| listeners := [];
       unhealthyListeners := {[ id_ l := true ]};
       ip := default [] (GoLib.ParseIP "127.0.0.1");
       stopped := false;
       balancingAlgorithm := b |}
    l.

(** A running server with the listeners [ls], none marked unhealthy. *)
Definition example_pool (ls : list Listener) (b : BalancingAlgorithm)
  : Server :=
  {| listeners := ls; unhealthyListeners := ∅;
     ip := default [] (GoLib.ParseIP "127.0.0.1");
     stopped := false; balancingAlgorithm := b |}.

(** [GET /] from 5.6.7.8, already forwarded once for 1.2.3.4, sent to the
    load balancer at [host]. *)
Definition example_request (host : string) : Request :=
  {| Method := "GET"; URL := "/"; Body := "";
     Header := {[ "X-Forwarded-For" := ["1.2.3.4"] ]};
     RemoteAddr := "5.6.7.8"; Host := host |}.


(** An upstream that answers every request with 404. *)
Definition example_upstream (req : Request) : option Response :=
  Some {| StatusCode := 404; RespBody := "not found" |}.

(** * Properties *)

(** ** Listener weights *)

Lemma WithWeight_clamps (w : Z) (l : Listener) :
  weight (WithWeight w l) = Z.max 0 (Z.min 100 w).
Proof.
  unfold WithWeight; simpl.
  destruct (Z.ltb_spec w 0); [lia|].
  destruct (w >? 100) eqn:E; lia.
Qed.

Lemma provided_config_weight (c : ListenerConfig) (l : Listener) :
  provided_config c -> 0 <= weight l <= 100 -> 0 <= weight (c l) <= 100.
Proof.
  intros [p pa t | w] Hl.
  - exact Hl.
  - rewrite WithWeight_clamps. lia.
Qed.

Lemma provided_config_wg (c : ListenerConfig) (l : Listener) :
  provided_config c -> wg (c l) = wg l.
Proof. intros [p pa t | w]; reflexivity. Qed.

Lemma apply_configs_weight (config : list ListenerConfig) :
  Forall provided_config config ->
  forall l, 0 <= weight l <= 100 -> 0 <= weight (apply_configs config l) <= 100.
Proof.
  induction 1 as [| c config Hc _ IH]; intros l Hl; simpl.
  - exact Hl.
  - apply IH. now apply provided_config_weight.
Qed.

Lemma apply_configs_wg (config : list ListenerConfig) :
  Forall provided_config config ->
  forall l, wg (apply_configs config l) = wg l.
Proof.
  induction 1 as [| c config Hc _ IH]; intros l; simpl.
  - reflexivity.
  - rewrite IH. now apply provided_config_wg.
Qed.

(** Every successful [NewListener] is [apply_configs] on the initial
    listener, whose weight is 1 and whose [wg] is nil. *)
Lemma NewListener_inl SplitHostPort ParseIP Atoi fresh targetAddr config l :
  NewListener SplitHostPort ParseIP Atoi fresh targetAddr config = inl l ->
  exists parsedIp parsedPort,
    l = apply_configs config
          {| id_ := fresh; targetIp := parsedIp; targetPort := parsedPort;
             healthCheckConfig := None; weight := 1; wg := None |}.
Proof.
  unfold NewListener.
  destruct (SplitHostPort targetAddr) as [[ip0 port0]|]; [|discriminate].
  destruct (ParseIP ip0) as [parsedIp|]; [|discriminate].
  destruct (Atoi port0) as [parsedPort|]; [|discriminate].
  intros [= <-]. eauto.
Qed.

Lemma NewListener_wg_nil SplitHostPort ParseIP Atoi fresh targetAddr config l :
  Forall provided_config config ->
  NewListener SplitHostPort ParseIP Atoi fresh targetAddr config = inl l ->
  wg l = None.
Proof.
  intros Hc H. apply NewListener_inl in H as (pi & pp & ->).
  now rewrite apply_configs_wg.
Qed.

(** C10. Every listener [NewListener] returns, whatever options of the
    package it was given, has a weight in [[0, 100]]; without options the
    weight is the default 1, and [WithWeight w] stores [w] clamped to
    [[0, 100]]. *)
Theorem NewListener_weight_in_range
    SplitHostPort ParseIP Atoi fresh targetAddr config l :
  Forall provided_config config ->
  NewListener SplitHostPort ParseIP Atoi fresh targetAddr config = inl l ->
  0 <= weight l <= 100
  /\ (config = [] -> weight l = 1)
  /\ (forall w, weight (WithWeight w l) = Z.max 0 (Z.min 100 w)).
Proof.
  intros Hc H. apply NewListener_inl in H as (pi & pp & ->).
  split; [|split].
  - apply apply_configs_weight; [exact Hc | simpl; lia].
  - intros ->. reflexivity.
  - intros w. apply WithWeight_clamps.
Qed.

Lemma NewListener_weight_in_range_witness :
  let l := {| id_ := "6ba7b810-9dad-11d1-80b4-00c04fd430c8";
              targetIp := default [] (GoLib.ParseIP "127.0.0.1");
              targetPort := 8082;
              healthCheckConfig := None; weight := 100; wg := None |} in
  0 <= weight l <= 100
  /\ ([WithWeight 250] = [] -> weight l = 1)
  /\ (forall w, weight (WithWeight w l) = Z.max 0 (Z.min 100 w)).
Proof.
  intros l.
  apply (NewListener_weight_in_range GoLib.SplitHostPort GoLib.ParseIP
           GoLib.Atoi "6ba7b810-9dad-11d1-80b4-00c04fd430c8"
           "127.0.0.1:8082" [WithWeight 250] l).
  - repeat constructor.
  - reflexivity.
Defined.

(** ** Selection policies *)

Lemma len_nonneg {A : Type} (l : list A) : 0 <= len l.
Proof. unfold len. lia. Qed.

Lemma len_zero {A : Type} (l : list A) : len l = 0 <-> l = [].
Proof.
  unfold len. destruct l; simpl; split; intros H; try reflexivity;
    try discriminate; lia.
Qed.

Lemma index_Done {A : Type} (l : list A) (i : Z) :
  0 <= i < len l -> exists a, index l i = Done a /\ l !! Z.to_nat i = Some a.
Proof.
  intros Hi. unfold index.
  replace ((0 <=? i) && (i <? len l)) with true
    by (symmetry; apply andb_true_iff; split; [apply Z.leb_le | apply Z.ltb_lt]; lia).
  destruct (l !! Z.to_nat i) as [a|] eqn:E; [eauto|].
  apply lookup_ge_None in E. unfold len in Hi. lia.
Qed.

Lemma index_elem {A : Type} (l : list A) (i : Z) (a : A) :
  index l i = Done a -> a ∈ l.
Proof.
  unfold index. destruct ((0 <=? i) && (i <? len l)); [|discriminate].
  destruct (l !! Z.to_nat i) as [x|] eqn:E; [|discriminate].
  intros [= <-]. eapply list_elem_of_lookup_2; eauto.
Qed.

(** A policy never returns a listener outside the slice it was given. *)
Lemma call_elem b src ls l b' src' :
  call b src ls = Done (l, b', src') -> l ∈ ls.
Proof.
  destruct b as [| i |]; simpl.
  - destruct (Intn src (len ls)) as [[k s1]|]; simpl; [|discriminate].
    destruct (index ls k) as [x|] eqn:E; simpl; [|discriminate].
    intros [= <- _ _]. eapply index_elem; eauto.
  - destruct (int_rem (int_add i 1) (len ls)) as [i1|]; simpl; [|discriminate].
    destruct (index ls i1) as [x|] eqn:E; simpl; [|discriminate].
    intros [= <- _ _]. eapply index_elem; eauto.
  - destruct (Intn src (len (flatSlice ls))) as [[k s1]|]; simpl; [|discriminate].
    destruct (index (flatSlice ls) k) as [j|]; simpl; [|discriminate].
    destruct (index ls j) as [x|] eqn:E; simpl; [|discriminate].
    intros [= <- _ _]. eapply index_elem; eauto.
Qed.

Lemma int_add_small (i : Z) :
  0 <= i < 2 ^ 63 - 1 -> int_add i 1 = i + 1.
Proof.
  intros Hi. unfold int_add, int_wrap.
  rewrite Z.mod_small; lia.
Qed.

(** One round-robin call: the cursor moves to [(i + 1) % len] and the
    listener at that index is returned. *)
Lemma call_RoundRobin (i : Z) (src : Source) (ls : list Listener) :
  0 <= i < 2 ^ 63 - 1 -> ls <> [] ->
  let i' := (i + 1) mod len ls in
  0 <= i' < len ls /\
  exists l, ls !! Z.to_nat i' = Some l /\
            call (RoundRobin i) src ls = Done (l, RoundRobin i', src).
Proof.
  intros Hi Hne i'.
  assert (Hlen : 0 < len ls).
  { pose proof (len_nonneg ls). destruct (Z.eq_dec (len ls) 0) as [E|E]; [|lia].
    apply len_zero in E. contradiction. }
  assert (Hi' : 0 <= i' < len ls) by (apply Z.mod_pos_bound; lia).
  split; [exact Hi'|].
  destruct (index_Done ls i' Hi') as (l & Hidx & Hl).
  exists l. split; [exact Hl|].
  simpl. rewrite int_add_small by exact Hi.
  unfold int_rem. destruct (Z.eqb_spec (len ls) 0) as [E|_]; [lia|].
  simpl. rewrite Z.rem_mod_nonneg by lia. fold i'. rewrite Hidx. reflexivity.
Qed.

Lemma pickListener_call b src ls l b' src' :
  ls <> [] ->
  call b src ls = Done (l, b', src') ->
  pickListener b src ls = Done (inl (l, b', src')).
Proof.
  intros Hne Hc. unfold pickListener.
  destruct (Z.eqb_spec (len ls) 0) as [E|_].
  - apply len_zero in E. contradiction.
  - rewrite Hc. reflexivity.
Qed.

Lemma picks_step n b src ls l b' src' :
  pickListener b src ls = Done (inl (l, b', src')) ->
  picks (S n) b src ls =
  rest ← picks n b' src' ls;
  match rest with
  | inr err => Done (inr err)
  | inl chosen => Done (inl ((l, b') :: chosen))
  end.
Proof. intros H. simpl. rewrite H. reflexivity. Qed.

(** C8. On an empty slice [pickListener] returns its error for every
    balancing algorithm, whatever the state of the algorithm and of the
    random source, and returns no listener; the empty slice is the only one
    on which it returns an error. *)
Theorem pickListener_empty (b : BalancingAlgorithm) (src : Source) :
  pickListener b src [] =
    Done (inr (ErrServerGenericError "no listeners available"))
  /\ (forall r, pickListener b src [] <> Done (inl r))
  /\ (forall ls e, pickListener b src ls = Done (inr e) ->
        ls = [] /\ e = ErrServerGenericError "no listeners available").
Proof.
  split; [reflexivity | split].
  - intros r. discriminate.
  - intros ls e. unfold pickListener.
    destruct (Z.eqb_spec (len ls) 0) as [E|_].
    + intros [= <-]. apply len_zero in E. auto.
    + destruct (call b src ls) as [x|]; discriminate.
Qed.

(** C9. Six consecutive round-robin selections over three listeners
    [[A; B; C]]: every call moves the cursor to the next index modulo 3 and
    returns the listener there, so the six results run through one rotation
    of [A, B, C] twice and each index is chosen exactly twice.  A fresh
    [RoundRobin()] (cursor 0) yields [B, C, A, B, C, A]. *)
Theorem RoundRobin_six_calls (A B C : Listener) (src : Source) (i : Z) :
  0 <= i < 2 ^ 63 - 1 ->
  (i mod 3 = 0 /\
   picks 6 (RoundRobin i) src [A; B; C] =
   Done (inl [(B, RoundRobin 1); (C, RoundRobin 2); (A, RoundRobin 0);
              (B, RoundRobin 1); (C, RoundRobin 2); (A, RoundRobin 0)]))
  \/ (i mod 3 = 1 /\
   picks 6 (RoundRobin i) src [A; B; C] =
   Done (inl [(C, RoundRobin 2); (A, RoundRobin 0); (B, RoundRobin 1);
              (C, RoundRobin 2); (A, RoundRobin 0); (B, RoundRobin 1)]))
  \/ (i mod 3 = 2 /\
   picks 6 (RoundRobin i) src [A; B; C] =
   Done (inl [(A, RoundRobin 0); (B, RoundRobin 1); (C, RoundRobin 2);
              (A, RoundRobin 0); (B, RoundRobin 1); (C, RoundRobin 2)])).
Proof.
  intros Hi.
  destruct (call_RoundRobin i src [A; B; C] Hi) as (Hr & l & Hl & Hc);
    [discriminate|].
  change (len [A; B; C]) with 3 in *.
  assert (Hcases : i mod 3 = 0 \/ i mod 3 = 1 \/ i mod 3 = 2)
    by (pose proof (Z.mod_pos_bound i 3); lia).
  assert (Hnext : (i + 1) mod 3 = (i mod 3 + 1) mod 3)
    by (rewrite Z.add_mod_idemp_l; lia).
  rewrite Hnext in *.
  rewrite (picks_step 5 _ _ _ _ _ _ (pickListener_call (RoundRobin i) src [A; B; C] _ _ _ ltac:(discriminate) Hc)).
  destruct Hcases as [E | [E | E]]; rewrite E in *;
    [left | right; left | right; right]; (split; [reflexivity|]);
    vm_compute in Hl; injection Hl as <-; reflexivity.
Qed.

Lemma RoundRobin_six_calls_witness :
  let A := {| id_ := "a"; targetIp := []; targetPort := 8082;
              healthCheckConfig := None; weight := 1; wg := None |} in
  let B := with_wg (WithWeight 2 A) (Some 0) in
  let C := WithWeight 3 A in
  picks 6 (RoundRobin 0) (fun _ => 0) [A; B; C] =
  Done (inl [(B, RoundRobin 1); (C, RoundRobin 2); (A, RoundRobin 0);
             (B, RoundRobin 1); (C, RoundRobin 2); (A, RoundRobin 0)]).
Proof.
  intros A B C.
  destruct (RoundRobin_six_calls A B C (fun _ => 0) 0) as [[_ H] | [[H _] | [H _]]].
  - lia.
  - exact H.
  - discriminate H.
  - discriminate H.
Defined.

(** With every weight at zero (or below) nothing is appended to
    [flatSlice]. *)
Lemma flatten_from_no_weight (ls : list Listener) :
  Forall (fun l => weight l <= 0) ls ->
  forall i, flatten_from i ls = [].
Proof.
  induction 1 as [| l ls Hl _ IH]; intros i; simpl.
  - reflexivity.
  - rewrite IH. replace (Z.to_nat (weight l)) with O by lia. reflexivity.
Qed.

(** C2. On a non-empty slice in which every listener has weight 0 the
    weighted round-robin selection does not return an error: [flatSlice]
    is empty and [rand.Intn(0)] panics. *)
Theorem WeightedRoundRobin_all_zero_panics (ls : list Listener) (src : Source) :
  ls <> [] ->
  Forall (fun l => weight l = 0) ls ->
  flatSlice ls = []
  /\ pickListener WeightedRoundRobin src ls = Panics "invalid argument to Intn".
Proof.
  intros Hne Hw.
  assert (Hflat : flatSlice ls = []).
  { apply flatten_from_no_weight. eapply Forall_impl; [exact Hw|].
    simpl. intros l Hl. lia. }
  split; [exact Hflat|].
  unfold pickListener.
  destruct (Z.eqb_spec (len ls) 0) as [E|_].
  - apply len_zero in E. contradiction.
  - simpl. rewrite Hflat. reflexivity.
Qed.

Lemma WeightedRoundRobin_all_zero_panics_witness :
  let l := {| id_ := "6ba7b810-9dad-11d1-80b4-00c04fd430c8";
              targetIp := default [] (GoLib.ParseIP "127.0.0.1");
              targetPort := 8082;
              healthCheckConfig := None; weight := 0; wg := None |} in
  NewListener GoLib.SplitHostPort GoLib.ParseIP GoLib.Atoi
    "6ba7b810-9dad-11d1-80b4-00c04fd430c8" "127.0.0.1:8082" [WithWeight 0]
  = inl l
  /\ flatSlice [l] = []
  /\ pickListener WeightedRoundRobin (fun _ => 7) [l]
     = Panics "invalid argument to Intn".
Proof.
  intros l. split; [reflexivity|].
  apply (WeightedRoundRobin_all_zero_panics [l] (fun _ => 7)).
  - discriminate.
  - repeat constructor.
Defined.

(** ** The selection loop of the dispatcher *)

Lemma len_pos {A : Type} (ls : list A) : ls <> [] -> 0 < len ls.
Proof.
  intros Hne. pose proof (len_nonneg ls).
  destruct (Z.eq_dec (len ls) 0) as [E|E]; [|lia].
  apply len_zero in E. contradiction.
Qed.

Lemma Intn_Done (src : Source) (n : Z) :
  0 < n ->
  Intn src n = Done (src O mod n, fun k => src (S k)) /\ 0 <= src O mod n < n.
Proof.
  intros Hn. unfold Intn. destruct (Z.leb_spec n 0); [lia|].
  split; [reflexivity | apply Z.mod_pos_bound; lia].
Qed.

Lemma flatten_from_range (ls : list Listener) :
  forall i j, j ∈ flatten_from i ls -> i <= j < i + len ls.
Proof.
  induction ls as [| l ls IH]; intros i j Hj; simpl in Hj.
  - inversion Hj.
  - unfold len in *. simpl length. apply elem_of_app in Hj as [Hj | Hj].
    + apply elem_of_replicate in Hj as [-> _]. lia.
    + apply IH in Hj. lia.
Qed.

(** In a sound state the algorithm returns a listener and stays sound. *)
Lemma call_sound b src ls :
  ls <> [] -> len ls < 2 ^ 63 -> sound_for b ls ->
  exists l b' src', call b src ls = Done (l, b', src') /\ sound_for b' ls.
Proof.
  intros Hne Hlen Hb. pose proof (len_pos ls Hne) as Hpos.
  destruct b as [| i |]; simpl in Hb.
  - destruct (Intn_Done src (len ls) Hpos) as [HI Hr].
    destruct (index_Done ls _ Hr) as (l & Hl & _).
    exists l, Random, (fun k => src (S k)).
    simpl. rewrite HI. simpl. rewrite Hl. simpl. auto.
  - destruct (call_RoundRobin i src ls Hb Hne) as (Hr & l & _ & Hc).
    exists l, (RoundRobin ((i + 1) mod len ls)), src.
    split; [exact Hc | simpl; lia].
  - assert (Hf : 0 < len (flatSlice ls)) by (apply len_pos; exact Hb).
    destruct (Intn_Done src _ Hf) as [HI Hr].
    destruct (index_Done (flatSlice ls) _ Hr) as (j & Hj & _).
    assert (Hjr : 0 <= j < len ls).
    { apply index_elem in Hj. apply flatten_from_range in Hj. lia. }
    destruct (index_Done ls j Hjr) as (l & Hl & _).
    exists l, WeightedRoundRobin, (fun k => src (S k)).
    simpl. rewrite HI. simpl. rewrite Hj. simpl. rewrite Hl. simpl. auto.
Qed.

Section AllUnhealthy.
Variable s : Server.
Hypothesis nonempty : listeners s <> [].
Hypothesis all_unhealthy :
  forall l, l ∈ listeners s -> unhealthy s (id_ l) = true.

Lemma loop_condition_holds (cur : option Listener) :
  (forall l, cur = Some l -> l ∈ listeners s) ->
  loop_condition s cur = true.
Proof.
  intros Hcur. destruct cur as [l|]; simpl; [|reflexivity].
  apply all_unhealthy, Hcur. reflexivity.
Qed.

(** The loop never leaves with a listener or an error. *)
Lemma select_loop_never_answers (fuel : nat) :
  forall b src cur,
    (forall l, cur = Some l -> l ∈ listeners s) ->
    answered (select_loop fuel s b src cur) = false.
Proof.
  induction fuel as [| fuel IH]; intros b src cur Hcur; simpl;
    rewrite (loop_condition_holds cur Hcur); [reflexivity|].
  unfold pickListener.
  destruct (Z.eqb_spec (len (listeners s)) 0) as [E|_].
  { apply len_zero in E. contradiction. }
  destruct (call b src (listeners s)) as [[[l b'] src']|] eqn:Hc; simpl;
    [|reflexivity].
  apply IH. intros l0 [= <-]. eapply call_elem; eauto.
Qed.

(** From a sound state of the algorithm the loop is still running after any
    number of iterations. *)
Lemma select_loop_spins (fuel : nat) :
  len (listeners s) < 2 ^ 63 ->
  forall b src cur,
    sound_for b (listeners s) ->
    (forall l, cur = Some l -> l ∈ listeners s) ->
    select_loop fuel s b src cur = None.
Proof.
  intros Hlen.
  induction fuel as [| fuel IH]; intros b src cur Hb Hcur; simpl;
    rewrite (loop_condition_holds cur Hcur); [reflexivity|].
  destruct (call_sound b src (listeners s) nonempty Hlen Hb)
    as (l & b' & src' & Hc & Hb').
  rewrite (pickListener_call _ _ _ _ _ _ nonempty Hc).
  apply IH; [exact Hb'|]. intros l0 [= <-]. eapply call_elem; eauto.
Qed.
End AllUnhealthy.

(** The two paths on which the dispatcher does answer 503: a stopped
    server, and a running server without any listener (one call of
    [pickListener]). *)
Lemma Server_handle_stopped SplitHostPort IP_String Itoa NewRequest_host Do
    (fuel : nat) (s : Server) (src : Source) (w : ResponseWriter) (r : Request) :
  stopped s = true ->
  Server_handle SplitHostPort IP_String Itoa NewRequest_host Do fuel s src w r
  = Some (Done {| response := http_Error w "server is stopped"
                                StatusServiceUnavailable;
                  forwarded := []; chosen := None;
                  server_after := s; source_after := src |}).
Proof. intros H. unfold Server_handle. rewrite H. reflexivity. Qed.

Lemma Server_handle_no_listeners
    SplitHostPort IP_String Itoa NewRequest_host Do
    (fuel : nat) (s : Server) (src : Source) (w : ResponseWriter) (r : Request) :
  stopped s = false ->
  listeners s = [] ->
  Server_handle SplitHostPort IP_String Itoa NewRequest_host Do
    (S fuel) s src w r
  = Some (Done {| response := http_Error w "load balancer internal error"
                                StatusServiceUnavailable;
                  forwarded := []; chosen := None;
                  server_after := s; source_after := src |}).
Proof.
  intros Hrun Hls. unfold Server_handle. rewrite Hrun. simpl.
  rewrite Hls. reflexivity.
Qed.

(** C1. With the server running, at least one listener registered and
    every listener marked unhealthy, [Server.handle] does not answer: after
    any number of iterations of the selection loop it has returned no
    response, in particular no service-unavailable one.  From a sound state
    of the balancing algorithm the loop is still running whatever the number
    of iterations. *)
Theorem Server_handle_all_unhealthy_never_answers
    SplitHostPort IP_String Itoa NewRequest_host Do
    (fuel : nat) (s : Server) (src : Source) (w : ResponseWriter) (r : Request) :
  stopped s = false ->
  listeners s <> [] ->
  len (listeners s) < 2 ^ 63 ->
  (forall l, l ∈ listeners s -> unhealthy s (id_ l) = true) ->
  answered (Server_handle SplitHostPort IP_String Itoa NewRequest_host Do
              fuel s src w r) = false
  /\ (sound_for (balancingAlgorithm s) (listeners s) ->
      Server_handle SplitHostPort IP_String Itoa NewRequest_host Do
        fuel s src w r = None).
Proof.
  intros Hrun Hne Hlen Hall. unfold Server_handle. rewrite Hrun. split.
  - assert (H : answered (select_loop fuel s (balancingAlgorithm s) src None)
                = false)
      by (apply select_loop_never_answers; [exact Hne | exact Hall | discriminate]).
    destruct (select_loop fuel s (balancingAlgorithm s) src None)
      as [[[[[[l|] b'] src'] | err] | reason] |]; simpl in *;
      try reflexivity; discriminate H.
  - intros Hb.
    rewrite (select_loop_spins s Hne Hall fuel Hlen
               (balancingAlgorithm s) src None Hb); [reflexivity|].
    discriminate.
Qed.

Lemma Server_handle_all_unhealthy_never_answers_witness :
  let run1000 :=
    Server_handle GoLib.SplitHostPort GoLib.IP_String GoLib.Itoa
      GoLib.NewRequest_host example_upstream 1000
      (example_server example_listener (RoundRobin 0)) (fun _ => 0)
      newResponseWriter (example_request "127.0.0.1:8080") in
  answered run1000 = false /\ run1000 = None.
Proof.
  intros run1000.
  destruct (Server_handle_all_unhealthy_never_answers
              GoLib.SplitHostPort GoLib.IP_String GoLib.Itoa
              GoLib.NewRequest_host example_upstream 1000
              (example_server example_listener (RoundRobin 0)) (fun _ => 0)
              newResponseWriter (example_request "127.0.0.1:8080"))
    as [H1 H2].
  - reflexivity.
  - discriminate.
  - reflexivity.
  - intros l Hl. apply list_elem_of_singleton in Hl as ->. reflexivity.
  - split; [exact H1 | apply H2; simpl; lia].
Defined.

(** ** The in-flight counter *)

Lemma Listener_handle_nil_wg SplitHostPort IP_String Itoa NewRequest_host Do
    (l : Listener) (w : ResponseWriter) (r : Request) :
  wg l = None ->
  Listener_handle SplitHostPort IP_String Itoa NewRequest_host Do l w r
  = Panics nil_dereference.
Proof. intros H. unfold Listener_handle. rewrite H. reflexivity. Qed.

Lemma Stop_nil_wg (s : Server) (l : Listener) (rest : list Listener) :
  stopped s = false ->
  listeners s = l :: rest ->
  wg l = None ->
  Stop s = {| server := store_stopped s true; drained := [id_ l];
              ending := StopPanics nil_dereference |}.
Proof.
  intros Hrun Hls Hwg. unfold Stop. rewrite Hrun. simpl.
  rewrite Hls. simpl. rewrite Hwg. reflexivity.
Qed.

(** C4. A listener returned by [NewListener] has a nil [wg], whatever
    options of the package were passed: [Listener.handle] panics on
    [l.wg.Add(1)], before anything is written or forwarded, and [Server.Stop]
    panics on [listener.wg.Wait()] as soon as it reaches the listener. *)
Theorem NewListener_wg_unusable
    SplitHostPort ParseIP Atoi IP_String Itoa NewRequest_host Do
    fresh targetAddr config (l : Listener) :
  Forall provided_config config ->
  NewListener SplitHostPort ParseIP Atoi fresh targetAddr config = inl l ->
  wg l = None
  /\ (forall w r,
        Listener_handle SplitHostPort IP_String Itoa NewRequest_host Do l w r
        = Panics nil_dereference)
  /\ (forall s rest,
        stopped s = false -> listeners s = l :: rest ->
        ending (Stop s) = StopPanics nil_dereference).
Proof.
  intros Hc Hnew.
  pose proof (NewListener_wg_nil _ _ _ _ _ _ _ Hc Hnew) as Hwg.
  split; [exact Hwg | split].
  - intros w r. now apply Listener_handle_nil_wg.
  - intros s rest Hrun Hls. now rewrite (Stop_nil_wg s l rest Hrun Hls Hwg).
Qed.

Lemma NewListener_wg_unusable_witness :
  wg example_listener = None
  /\ Listener_handle GoLib.SplitHostPort GoLib.IP_String GoLib.Itoa
       GoLib.NewRequest_host example_upstream example_listener
       newResponseWriter (example_request "127.0.0.1:8080")
     = Panics nil_dereference
  /\ ending (Stop (example_server example_listener Random))
     = StopPanics nil_dereference.
Proof.
  destruct (NewListener_wg_unusable GoLib.SplitHostPort GoLib.ParseIP
              GoLib.Atoi GoLib.IP_String GoLib.Itoa GoLib.NewRequest_host
              example_upstream "6ba7b810-9dad-11d1-80b4-00c04fd430c8"
              "127.0.0.1:8082" [] example_listener)
    as (H1 & H2 & H3).
  - constructor.
  - reflexivity.
  - split; [exact H1 | split].
    + apply H2.
    + apply (H3 _ []); reflexivity.
Defined.

(** ** Stop *)

Lemma Stop_already_stopped (s : Server) :
  stopped s = true ->
  Stop s = {| server := s; drained := [];
              ending := StopReturns (Some ErrServerStopped) |}.
Proof. intros H. unfold Stop. rewrite H. reflexivity. Qed.

Lemma Stop_sets_flag (s : Server) : stopped (server (Stop s)) = true.
Proof.
  unfold Stop. destruct (stopped s) eqn:E; simpl; [exact E|].
  destruct (wait_all (listeners s)). reflexivity.
Qed.

(** The loop over the listeners returns exactly when it has called [Wait]
    on every listener and each counter was zero. *)
Lemma wait_all_returns (ls : list Listener) (waited : list UUID)
    (err : option error) :
  wait_all ls = (waited, StopReturns err) <->
  Forall (fun l => wg l = Some 0) ls /\ waited = id_ <$> ls /\ err = None.
Proof.
  revert waited. induction ls as [| l ls IH]; intros waited; simpl.
  - split.
    + intros [= <- <-]. auto.
    + intros (_ & -> & ->). reflexivity.
  - destruct (wg l) as [n|] eqn:Hwg.
    + destruct (Z.eqb_spec n 0) as [-> | Hn].
      * destruct (wait_all ls) as [waited' e] eqn:Hw. split.
        -- intros [= <- ->].
           destruct (proj1 (IH waited') eq_refl) as (Hall & -> & ->).
           auto.
        -- intros (Hall & -> & ->). inversion Hall as [| ? ? _ Hall']; subst.
           pose proof (proj2 (IH (id_ <$> ls))
                         (conj Hall' (conj eq_refl eq_refl))) as [= -> ->].
           reflexivity.
      * split; [discriminate|].
        intros (Hall & _). inversion Hall as [| ? ? Hl _]; subst.
        rewrite Hwg in Hl. injection Hl as ->. contradiction.
    + split; [discriminate|].
      intros (Hall & _). inversion Hall as [| ? ? Hl _]; subst.
      rewrite Hwg in Hl. discriminate.
Qed.

(** On a running server whose counters are initialised [Stop] stores the
    flag and returns nil exactly when every counter it waited on was at
    zero; otherwise it is parked in a [Wait]. *)
Lemma Stop_drains (s : Server) (err : option error) :
  stopped s = false ->
  ending (Stop s) = StopReturns err <->
  Stop s = {| server := store_stopped s true; drained := id_ <$> listeners s;
              ending := StopReturns None |} /\
  Forall (fun l => wg l = Some 0) (listeners s) /\ err = None.
Proof.
  intros Hrun. unfold Stop. rewrite Hrun. simpl.
  destruct (wait_all (listeners s)) as [waited e] eqn:Hw. simpl. split.
  - intros ->. apply wait_all_returns in Hw as (Hall & -> & ->). auto.
  - intros ([= _ ->] & _ & ->). reflexivity.
Qed.

(** Whatever the first call did, a second [Stop] returns [ErrServerStopped],
    waits on no counter and leaves the server as it found it. *)
Lemma Stop_twice (s : Server) :
  Stop (server (Stop s)) =
  {| server := server (Stop s); drained := [];
     ending := StopReturns (Some ErrServerStopped) |}.
Proof. apply Stop_already_stopped, Stop_sets_flag. Qed.

(** C6. On a running server whose first listener has a nil [wg] (every
    listener of [NewListener] has) [Stop] stores the stopped flag and then
    panics in the first [Wait]: it neither drains nor returns.  The second
    half of the contract holds: a further [Stop] returns [ErrServerStopped]
    without waiting on any counter and without changing the server. *)
Theorem Stop_panics_before_draining (s : Server) (l : Listener)
    (rest : list Listener) :
  stopped s = false ->
  listeners s = l :: rest ->
  wg l = None ->
  Stop s = {| server := store_stopped s true; drained := [id_ l];
              ending := StopPanics nil_dereference |}
  /\ Stop (server (Stop s)) =
     {| server := store_stopped s true; drained := [];
        ending := StopReturns (Some ErrServerStopped) |}.
Proof.
  intros Hrun Hls Hwg.
  pose proof (Stop_nil_wg s l rest Hrun Hls Hwg) as H.
  split; [exact H|].
  rewrite Stop_twice, H. reflexivity.
Qed.

Lemma Stop_panics_before_draining_witness :
  let s := example_server example_listener Random in
  Stop s = {| server := store_stopped s true;
              drained := ["6ba7b810-9dad-11d1-80b4-00c04fd430c8"];
              ending := StopPanics nil_dereference |}
  /\ Stop (server (Stop s)) =
     {| server := store_stopped s true; drained := [];
        ending := StopReturns (Some ErrServerStopped) |}.
Proof.
  intros s.
  apply (Stop_panics_before_draining s example_listener []); reflexivity.
Defined.

(** ** Forwarding *)

Lemma append_empty_r (s : string) : s +:+ "" = s.
Proof.
  induction s as [| c s IH]; [reflexivity|].
  change (String c (s +:+ "") = String c s). now rewrite IH.
Qed.


(** A response copied onto a writer that has not sent its status line
    reaches the client with status 200. *)
Lemma io_Copy_fresh (w : ResponseWriter) (body : string) :
  wroteHeader w = false ->
  client_status (io_Copy w body) = StatusOK
  /\ client_body (io_Copy w body) = written w +:+ body.
Proof.
  intros Hw. unfold io_Copy, client_status, client_body.
  destruct (String.eqb_spec body "") as [-> | _].
  - rewrite Hw, append_empty_r. auto.
  - unfold Write, WriteHeader. rewrite Hw. simpl. auto.
Qed.

Lemma http_Error_fresh (w : ResponseWriter) (msg : string) (code : Z) :
  wroteHeader w = false ->
  client_status (http_Error w msg code) = code
  /\ client_body (http_Error w msg code)
     = written w +:+ msg +:+ String "010"%char "".
Proof.
  intros Hw. unfold http_Error, Write, WriteHeader, client_status, client_body.
  rewrite Hw. simpl. auto.
Qed.

Section ForwardingFacts.
Variable SplitHostPort : string -> option (string * string).
Variable IP_String : IP -> string.
Variable Itoa : Z -> string.
Variable NewRequest_host : string -> string -> option string.
Variable Do : Request -> option Response.

Local Abbreviation handle :=
  (Listener_handle SplitHostPort IP_String Itoa NewRequest_host Do).
Local Abbreviation body_of :=
  (handle_body SplitHostPort IP_String Itoa NewRequest_host Do).
Local Abbreviation target l := ("http://" +:+ getTargetAddr IP_String Itoa l).

(** A call that returns has run the body between [Add(1)] and [Done()], and
    the counter is back where it was. *)
Lemma Listener_handle_Done (l : Listener) (w : ResponseWriter) (r : Request)
    (h : Handled) :
  handle l w r = Done h ->
  (writer h, sent h, inbound h) = body_of l w r
  /\ exists g, wg l = Some g /\ wg (after h) = Some g.
Proof.
  unfold Listener_handle.
  destruct (wg l) as [g|]; simpl; [|discriminate].
  destruct (g + 1 <? 0) eqn:E1; simpl; [discriminate|].
  destruct (body_of l w r) as [[w' out] r'].
  destruct (g + 1 + -1 <? 0) eqn:E2; simpl; [discriminate|].
  intros [= <-]. simpl. split; [reflexivity|].
  exists g. split; [reflexivity|]. f_equal. lia.
Qed.

Lemma Listener_handle_ready (l : Listener) (w : ResponseWriter) (r : Request)
    (g : Z) :
  wg l = Some g -> 0 <= g ->
  exists h, handle l w r = Done h
            /\ (writer h, sent h, inbound h) = body_of l w r.
Proof.
  intros Hwg Hg. unfold Listener_handle. rewrite Hwg. simpl.
  destruct (Z.ltb_spec (g + 1) 0); [lia|]. simpl.
  destruct (body_of l w r) as [[w' out] r'].
  destruct (Z.ltb_spec (g + 1 + -1) 0); [lia|]. simpl.
  eexists. split; reflexivity.
Qed.

(** What the body does once the outbound request could be built. *)
Lemma handle_body_built (l : Listener) (w : ResponseWriter) (r : Request)
    (proxyReq : Request) :
  http_NewRequest NewRequest_host (Method r) (target l) (Body r)
  = Some proxyReq ->
  let h := Set_ (Header r) "X-Forwarded-For" (forwarded_for r) in
  body_of l w r =
  match SplitHostPort (Host r) with
  | None =>
      (http_Error w "unable to create forwarded request"
         StatusInternalServerError, [], with_header r h)
  | Some (_, port) =>
      let h := Set_ h "X-Forwarded-Port" port in
      let p := with_header proxyReq h in
      (match Do p with
       | None => http_Error w "error forwarding request"
                   StatusInternalServerError
       | Some resp => io_Copy w (RespBody resp)
       end, [p], with_header r h)
  end.
Proof.
  intros Hnew. unfold handle_body. rewrite Hnew.
  unfold forwarded_for.
  destruct (negb (String.eqb (Get (Header r) "X-Forwarded-For") ""));
    destruct (SplitHostPort (Host r)) as [[host port]|]; simpl;
    try reflexivity;
    destruct (Do _); reflexivity.
Qed.

(** A request is handed to [Do] only with both headers set. *)
Lemma handle_body_sent (l : Listener) (w w' : ResponseWriter)
    (r r' p : Request) :
  body_of l w r = (w', [p], r') ->
  exists host port,
    SplitHostPort (Host r) = Some (host, port)
    /\ Header p = Set_ (Set_ (Header r) "X-Forwarded-For" (forwarded_for r))
                    "X-Forwarded-Port" port
    /\ Body p = Body r
    /\ w' = match Do p with
            | None => http_Error w "error forwarding request"
                        StatusInternalServerError
            | Some resp => io_Copy w (RespBody resp)
            end.
Proof.
  destruct (http_NewRequest NewRequest_host (Method r) (target l) (Body r))
    as [proxyReq|] eqn:Hnew.
  - rewrite (handle_body_built l w r proxyReq Hnew). simpl.
    destruct (SplitHostPort (Host r)) as [[host port]|]; [|discriminate].
    intros [= <- <- _]. exists host, port. simpl.
    repeat split; try reflexivity.
    unfold http_NewRequest in Hnew.
    destruct (NewRequest_host _ _); [|discriminate].
    injection Hnew as <-. reflexivity.
  - unfold handle_body. rewrite Hnew. discriminate.
Qed.
End ForwardingFacts.

(** C3. When [Listener.handle] has forwarded a request and the outbound
    call succeeded, the client receives the upstream body unchanged, but the
    status it receives is 200 whatever status the upstream answered:
    [handle] copies the body and never writes the upstream status. *)
Theorem forwarded_response_status
    SplitHostPort IP_String Itoa NewRequest_host Do
    (l : Listener) (w : ResponseWriter) (r : Request)
    (h : Handled) (p : Request) (resp : Response) :
  wroteHeader w = false ->
  Listener_handle SplitHostPort IP_String Itoa NewRequest_host Do l w r
  = Done h ->
  sent h = [p] ->
  Do p = Some resp ->
  client_body (writer h) = written w +:+ RespBody resp
  /\ client_status (writer h) = StatusOK
  /\ (StatusCode resp <> StatusOK ->
      client_status (writer h) <> StatusCode resp).
Proof.
  intros Hw Hh Hs Hdo.
  apply Listener_handle_Done in Hh as [Hb _]. rewrite Hs in Hb.
  symmetry in Hb. apply handle_body_sent in Hb as (host & port & _ & _ & _ & Hw').
  rewrite Hdo in Hw'. rewrite Hw'.
  destruct (io_Copy_fresh w (RespBody resp) Hw) as [Hst Hbody].
  rewrite Hst, Hbody. repeat split. intros Hne Heq. apply Hne. now symmetry.
Qed.

Lemma forwarded_response_status_witness :
  exists h p,
    Listener_handle GoLib.SplitHostPort GoLib.IP_String GoLib.Itoa
      GoLib.NewRequest_host example_upstream example_ready
      newResponseWriter (example_request "127.0.0.1:8080") = Done h
    /\ sent h = [p]
    /\ example_upstream p = Some {| StatusCode := 404; RespBody := "not found" |}
    /\ client_body (writer h) = "not found"
    /\ client_status (writer h) = 200.
Proof.
  eexists. eexists.
  split; [reflexivity|]. split; [reflexivity|]. split; [reflexivity|].
  edestruct (forwarded_response_status GoLib.SplitHostPort GoLib.IP_String
               GoLib.Itoa GoLib.NewRequest_host example_upstream example_ready
               newResponseWriter (example_request "127.0.0.1:8080"))
    as (Hbody & Hstatus & _).
  - reflexivity.
  - reflexivity.
  - reflexivity.
  - reflexivity.
  - split; [exact Hbody | exact Hstatus].
Defined.

(** C5, as the code has it.  For a listener whose counter is initialised:
    when the [Host] header splits into host and port, every request handed
    to the upstream carries that port as its only [X-Forwarded-Port] value
    (and one request is handed over whenever the outbound request can be
    built); when it does not split, nothing is forwarded and the client
    receives status 500 (internal server error) with the message
    [unable to create forwarded request]. *)
Theorem forwarded_port_or_internal_error
    SplitHostPort IP_String Itoa NewRequest_host Do
    (l : Listener) (w : ResponseWriter) (r : Request) (g : Z) :
  wg l = Some g -> 0 <= g ->
  wroteHeader w = false ->
  exists h,
    Listener_handle SplitHostPort IP_String Itoa NewRequest_host Do l w r
    = Done h
    /\ match SplitHostPort (Host r) with
       | Some (_, port) =>
           (forall p, p ∈ sent h ->
                      Header p !! "X-Forwarded-Port" = Some [port])
           /\ (http_NewRequest NewRequest_host (Method r)
                 ("http://" +:+ getTargetAddr IP_String Itoa l) (Body r)
               <> None ->
               exists p, sent h = [p])
       | None =>
           sent h = []
           /\ client_status (writer h) = StatusInternalServerError
           /\ client_body (writer h)
              = written w +:+ "unable to create forwarded request"
                +:+ String "010"%char ""
       end.
Proof.
  intros Hwg Hg Hw.
  destruct (Listener_handle_ready SplitHostPort IP_String Itoa NewRequest_host
              Do l w r g Hwg Hg) as (h & Hh & Hb).
  exists h. split; [exact Hh|].
  destruct (http_Error_fresh w "unable to create forwarded request"
              StatusInternalServerError Hw) as [Hst Hbody].
  destruct (http_NewRequest NewRequest_host (Method r)
              ("http://" +:+ getTargetAddr IP_String Itoa l) (Body r))
    as [proxyReq|] eqn:Hnew.
  - rewrite (handle_body_built _ _ _ _ _ l w r proxyReq Hnew) in Hb.
    simpl in Hb.
    destruct (SplitHostPort (Host r)) as [[host port]|].
    + injection Hb as _ Hs _. rewrite Hs. split.
      * intros p Hp. apply list_elem_of_singleton in Hp as ->. simpl.
        unfold Set_. apply lookup_insert_eq.
      * intros _. eauto.
    + injection Hb as Hwr Hs _. rewrite Hs, Hwr. auto.
  - unfold handle_body in Hb. rewrite Hnew in Hb.
    injection Hb as Hwr Hs _. rewrite Hs, Hwr.
    destruct (SplitHostPort (Host r)) as [[host port]|].
    + split; [intros p Hp; inversion Hp | intros Hne; now contradiction Hne].
    + auto.
Qed.

Lemma forwarded_port_or_internal_error_witness :
  exists h,
    Listener_handle GoLib.SplitHostPort GoLib.IP_String GoLib.Itoa
      GoLib.NewRequest_host example_upstream example_ready
      newResponseWriter (example_request "localhost") = Done h
    /\ sent h = []
    /\ client_status (writer h) = 500
    /\ client_body (writer h)
       = "unable to create forwarded request" +:+ String "010"%char "".
Proof.
  destruct (forwarded_port_or_internal_error GoLib.SplitHostPort
              GoLib.IP_String GoLib.Itoa GoLib.NewRequest_host example_upstream
              example_ready newResponseWriter (example_request "localhost") 0)
    as (h & Hh & Hm).
  - reflexivity.
  - lia.
  - reflexivity.
  - exists h. split; [exact Hh | exact Hm].
Defined.

(** C5, with the bad-gateway reading, fails: a request whose [Host] header
    is [localhost] (no port) is answered with status 500, not 502. *)
Lemma unparsable_port_is_internal_error :
  ~ unparsable_port_is_bad_gateway GoLib.SplitHostPort GoLib.IP_String
      GoLib.Itoa GoLib.NewRequest_host example_upstream example_ready
      newResponseWriter (example_request "localhost").
Proof.
  intros H. destruct (H eq_refl) as (h & Hh & _ & Hst).
  vm_compute in Hh. injection Hh as <-.
  vm_compute in Hst. discriminate Hst.
Qed.




(** * Further properties of the code *)

(** ** Listener options *)

Lemma provided_config_identity (c : ListenerConfig) (l : Listener) :
  provided_config c ->
  id_ (c l) = id_ l /\ targetIp (c l) = targetIp l
  /\ targetPort (c l) = targetPort l.
Proof. intros [p pa t | w]; auto. Qed.

Lemma apply_configs_identity (config : list ListenerConfig) :
  Forall provided_config config ->
  forall l, id_ (apply_configs config l) = id_ l
            /\ targetIp (apply_configs config l) = targetIp l
            /\ targetPort (apply_configs config l) = targetPort l.
Proof.
  induction 1 as [| c config Hc _ IH]; intros l; simpl; [auto|].
  destruct (IH (c l)) as (-> & -> & ->). now apply provided_config_identity.
Qed.

Lemma apply_configs_snoc (config : list ListenerConfig) (c : ListenerConfig)
    (l : Listener) :
  apply_configs (config ++ [c]) l = c (apply_configs config l).
Proof. unfold apply_configs. now rewrite fold_left_app. Qed.

(** The identifier and the target of a listener are fixed by [NewListener]:
    the identifier is the UUID drawn, the target is what the address parses
    to, and no option of the package changes either. *)
Theorem NewListener_identity_and_target
    SplitHostPort ParseIP Atoi fresh targetAddr config (l : Listener) :
  Forall provided_config config ->
  NewListener SplitHostPort ParseIP Atoi fresh targetAddr config = inl l ->
  id_ l = fresh
  /\ exists host portText,
       SplitHostPort targetAddr = Some (host, portText)
       /\ ParseIP host = Some (targetIp l)
       /\ Atoi portText = Some (targetPort l).
Proof.
  intros Hc. unfold NewListener.
  destruct (SplitHostPort targetAddr) as [[host portText]|]; [|discriminate].
  destruct (ParseIP host) as [parsedIp|] eqn:Hip; [|discriminate].
  destruct (Atoi portText) as [parsedPort|] eqn:Hport; [|discriminate].
  intros [= <-].
  destruct (apply_configs_identity config Hc
              {| id_ := fresh; targetIp := parsedIp; targetPort := parsedPort;
                 healthCheckConfig := None; weight := 1; wg := None |})
    as (-> & -> & ->).
  simpl. split; [reflexivity|]. exists host, portText. auto.
Qed.

Lemma NewListener_identity_and_target_witness :
  let l := WithWeight 7 example_listener in
  id_ l = "6ba7b810-9dad-11d1-80b4-00c04fd430c8"
  /\ exists host portText,
       GoLib.SplitHostPort "127.0.0.1:8082" = Some (host, portText)
       /\ GoLib.ParseIP host = Some (targetIp l)
       /\ GoLib.Atoi portText = Some (targetPort l).
Proof.
  intros l.
  apply (NewListener_identity_and_target GoLib.SplitHostPort GoLib.ParseIP
           GoLib.Atoi "6ba7b810-9dad-11d1-80b4-00c04fd430c8"
           "127.0.0.1:8082" [WithWeight 7] l).
  - repeat constructor.
  - reflexivity.
Defined.

(** [NewListener] fails exactly when the address does not split into host
    and port, the host is not an IP address or the port is not an integer;
    the error is always an [ErrListenerCreate], and the options passed
    neither cause nor prevent it. *)
Theorem NewListener_fails_iff
    SplitHostPort ParseIP Atoi fresh targetAddr config :
  ((exists e, NewListener SplitHostPort ParseIP Atoi fresh targetAddr config
              = inr e)
   <-> (SplitHostPort targetAddr = None
        \/ exists host portText,
             SplitHostPort targetAddr = Some (host, portText)
             /\ (ParseIP host = None \/ Atoi portText = None)))
  /\ (forall e,
        NewListener SplitHostPort ParseIP Atoi fresh targetAddr config = inr e ->
        (exists reason, e = ErrListenerCreate reason)
        /\ NewListener SplitHostPort ParseIP Atoi fresh targetAddr [] = inr e).
Proof.
  unfold NewListener.
  destruct (SplitHostPort targetAddr) as [[host portText]|] eqn:Hs.
  - destruct (ParseIP host) as [parsedIp|] eqn:Hi.
    + destruct (Atoi portText) as [parsedPort|] eqn:Hp.
      * split; [split|].
        -- intros [e He]. discriminate.
        -- intros [H | (h & p & H & [H' | H'])]; congruence.
        -- intros e He. discriminate.
      * split; [split|]; eauto 10. intros e [= <-]. eauto.
    + split; [split|]; eauto 10. intros e [= <-]. eauto.
  - split; [split|]; eauto. intros e [= <-]. eauto.
Qed.

(** Options are applied in order, so the last option of a kind decides, and
    the two kinds do not interfere: a trailing [WithWeight w] leaves the
    weight at [w] clamped and the health check as it was; a trailing
    [WithListenerHealthCheck] sets the health check and leaves the weight. *)
Theorem options_last_wins (config : list ListenerConfig) (l : Listener)
    (w p t : Z) (pa : string) :
  weight (apply_configs (config ++ [WithWeight w]) l) = Z.max 0 (Z.min 100 w)
  /\ healthCheckConfig (apply_configs (config ++ [WithWeight w]) l)
     = healthCheckConfig (apply_configs config l)
  /\ healthCheckConfig
       (apply_configs (config ++ [WithListenerHealthCheck p pa t]) l)
     = Some {| port := p; path := pa; timeout := t |}
  /\ weight (apply_configs (config ++ [WithListenerHealthCheck p pa t]) l)
     = weight (apply_configs config l).
Proof.
  rewrite !apply_configs_snoc. rewrite WithWeight_clamps. auto.
Qed.

(** ** Selection policies, beyond the empty slice *)

Lemma index_lookup {A : Type} (l : list A) (i : Z) (a : A) :
  index l i = Done a -> 0 <= i < len l /\ l !! Z.to_nat i = Some a.
Proof.
  unfold index.
  destruct (Z.leb_spec 0 i); simpl; [|discriminate].
  destruct (Z.ltb_spec i (len l)); simpl; [|discriminate].
  destruct (l !! Z.to_nat i) as [x|]; [|discriminate].
  intros [= <-]. auto with zarith.
Qed.

(** An index in the flattened slice points at a listener of positive
    weight. *)
Lemma flatten_from_positive (ls : list Listener) :
  forall i j, j ∈ flatten_from i ls ->
              exists l, ls !! Z.to_nat (j - i) = Some l /\ 0 < weight l.
Proof.
  induction ls as [| l ls IH]; intros i j Hj; simpl in Hj.
  - inversion Hj.
  - apply elem_of_app in Hj as [Hj | Hj].
    + apply elem_of_replicate in Hj as [-> Hn].
      exists l. rewrite Z.sub_diag. split; [reflexivity | lia].
    + pose proof (flatten_from_range ls _ _ Hj) as Hr.
      apply IH in Hj as (l' & Hl' & Hw). exists l'. split; [|exact Hw].
      replace (Z.to_nat (j - i)) with (S (Z.to_nat (j - (i + 1)))) by lia.
      exact Hl'.
Qed.

Lemma flatten_from_nonempty (ls : list Listener) (l : Listener) :
  l ∈ ls -> 0 < weight l -> forall i, flatten_from i ls <> [].
Proof.
  induction ls as [| l0 ls IH]; intros Hin Hw i; [inversion Hin|].
  simpl. apply elem_of_cons in Hin as [Heq | Hin].
  - subst l0. destruct (Z.to_nat (weight l)) eqn:E; [exfalso; lia | discriminate].
  - intros Happ. apply app_eq_nil in Happ as [_ Hrest].
    exact (IH Hin Hw (i + 1) Hrest).
Qed.

Lemma pickListener_elem (b b' : BalancingAlgorithm)
    (src src' : Source) (ls : list Listener) (l : Listener) :
  pickListener b src ls = Done (inl (l, b', src')) -> l ∈ ls.
Proof.
  unfold pickListener. destruct (len ls =? 0); [discriminate|].
  destruct (call b src ls) as [[[l0 b0] src0]|] eqn:Hc; simpl; [|discriminate].
  intros [= -> -> ->]. eapply call_elem; eauto.
Qed.

(** The three policies only ever return a listener of the slice they were
    given, and keep their kind: what comes back as the closure is again the
    same policy. *)
Theorem pickListener_within_snapshot (b b' : BalancingAlgorithm)
    (src src' : Source) (ls : list Listener) (l : Listener) :
  pickListener b src ls = Done (inl (l, b', src')) ->
  l ∈ ls
  /\ match b, b' with
     | Random, Random => True
     | RoundRobin _, RoundRobin i' => 0 <= i' < len ls
     | WeightedRoundRobin, WeightedRoundRobin => True
     | _, _ => False
     end.
Proof.
  unfold pickListener. destruct (len ls =? 0); [discriminate|].
  destruct (call b src ls) as [[[l0 b0] src0]|] eqn:Hc; simpl; [|discriminate].
  intros [= -> -> ->]. split; [eapply call_elem; eauto|].
  destruct b as [| i |]; simpl in Hc.
  - destruct (Intn src (len ls)) as [[k s1]|]; simpl in Hc; [|discriminate].
    destruct (index ls k); simpl in Hc; [|discriminate]. now injection Hc as _ <- _.
  - destruct (int_rem (int_add i 1) (len ls)) as [i1|]; simpl in Hc;
      [|discriminate].
    destruct (index ls i1) eqn:Hi; simpl in Hc; [|discriminate].
    injection Hc as _ <- _. apply index_lookup in Hi. lia.
  - destruct (Intn src (len (flatSlice ls))) as [[k s1]|]; simpl in Hc;
      [|discriminate].
    destruct (index (flatSlice ls) k) as [j|]; simpl in Hc; [|discriminate].
    destruct (index ls j); simpl in Hc; [|discriminate].
    now injection Hc as _ <- _.
Qed.

Lemma pickListener_within_snapshot_witness :
  let ls := [example_listener; example_ready] in
  example_ready ∈ ls /\ 0 <= 1 < len ls.
Proof.
  intros ls.
  apply (pickListener_within_snapshot (RoundRobin 0) (RoundRobin 1)
           (fun _ => 0) (fun _ => 0) ls example_ready).
  reflexivity.
Defined.

Lemma call_WeightedRoundRobin_Done (src : Source) (ls : list Listener) :
  flatSlice ls <> [] ->
  exists l j,
    index (flatSlice ls) (src O mod len (flatSlice ls)) = Done j
    /\ index ls j = Done l
    /\ call WeightedRoundRobin src ls
       = Done (l, WeightedRoundRobin, fun k => src (S k)).
Proof.
  intros Hb.
  assert (Hf : 0 < len (flatSlice ls)) by (apply len_pos; exact Hb).
  destruct (Intn_Done src _ Hf) as [HI Hr].
  destruct (index_Done (flatSlice ls) _ Hr) as (j & Hj & _).
  assert (Hjr : 0 <= j < len ls).
  { pose proof Hj as Hj'. apply index_elem in Hj'.
    apply flatten_from_range in Hj'. lia. }
  destruct (index_Done ls j Hjr) as (l & Hl & _).
  exists l, j. split; [exact Hj | split; [exact Hl|]].
  simpl. rewrite HI. simpl. rewrite Hj. simpl. rewrite Hl. reflexivity.
Qed.

Lemma call_WeightedRoundRobin_weight (src src' : Source) (ls : list Listener)
    (l : Listener) (b' : BalancingAlgorithm) :
  call WeightedRoundRobin src ls = Done (l, b', src') -> 0 < weight l.
Proof.
  simpl.
  destruct (Intn src (len (flatSlice ls))) as [[k s1]|]; simpl; [|discriminate].
  destruct (index (flatSlice ls) k) as [j|] eqn:Hj; simpl; [|discriminate].
  destruct (index ls j) as [x|] eqn:Hx; simpl; [|discriminate].
  intros [= <- _ _].
  apply index_elem in Hj. apply flatten_from_positive in Hj as (l' & Hl' & Hw).
  apply index_lookup in Hx as [_ Hx]. rewrite Z.sub_0_r in Hl'.
  rewrite Hx in Hl'. injection Hl' as ->. exact Hw.
Qed.

(** Weighted round-robin never returns a listener whose weight is zero (or
    below): only indices of listeners with a positive weight are in the
    flattened slice. *)
Theorem WeightedRoundRobin_skips_weight_zero (src src' : Source)
    (ls : list Listener) (l : Listener) (b' : BalancingAlgorithm) :
  pickListener WeightedRoundRobin src ls = Done (inl (l, b', src')) ->
  0 < weight l /\ l ∈ ls.
Proof.
  unfold pickListener. destruct (len ls =? 0); [discriminate|].
  destruct (call WeightedRoundRobin src ls) as [[[l0 b0] src0]|] eqn:Hc;
    simpl; [|discriminate].
  intros [= -> -> ->]. split.
  - eapply call_WeightedRoundRobin_weight; eauto.
  - eapply call_elem; eauto.
Qed.

Lemma WeightedRoundRobin_skips_weight_zero_witness :
  let idle := WithWeight 0 example_listener in
  let busy := WithWeight 3 example_ready in
  pickListener WeightedRoundRobin (fun _ => 5) [idle; busy]
  = Done (inl (busy, WeightedRoundRobin, fun _ => 5))
  /\ 0 < weight busy /\ busy ∈ [idle; busy].
Proof.
  intros idle busy. split; [reflexivity|].
  apply (WeightedRoundRobin_skips_weight_zero (fun _ => 5) (fun _ => 5)
           [idle; busy] busy WeightedRoundRobin).
  reflexivity.
Defined.

(** Weighted round-robin returns a listener exactly when some listener of
    the slice has a positive weight; with none (an empty slice apart, which
    [pickListener] answers with its error) it panics. *)
Theorem WeightedRoundRobin_succeeds_iff (src : Source) (ls : list Listener) :
  (exists l, l ∈ ls /\ 0 < weight l)
  <-> (exists r, pickListener WeightedRoundRobin src ls = Done (inl r)).
Proof.
  split.
  - intros (l & Hin & Hw).
    assert (Hne : ls <> []) by (intros ->; inversion Hin).
    destruct (call_WeightedRoundRobin_Done src ls
                (flatten_from_nonempty ls l Hin Hw 0)) as (l' & j & _ & _ & Hc).
    eexists. eapply pickListener_call; eauto.
  - intros ([[l b'] src'] & H). exists l.
    unfold pickListener in H. destruct (len ls =? 0); [discriminate|].
    destruct (call WeightedRoundRobin src ls) as [[[l0 b0] src0]|] eqn:Hc;
      simpl in H; [|discriminate].
    injection H as -> -> ->. split.
    + eapply call_elem; eauto.
    + eapply call_WeightedRoundRobin_weight; eauto.
Qed.





(** Uniform-random selection on a non-empty slice never fails, returns the
    listener at the index drawn and consumes one draw; every listener of
    the slice is returned for some draw. *)
Theorem Random_reaches_every_listener (ls : list Listener) :
  ls <> [] ->
  (forall src, exists l,
      ls !! Z.to_nat (src O mod len ls) = Some l
      /\ pickListener Random src ls
         = Done (inl (l, Random, fun k => src (S k))))
  /\ (forall k l, ls !! k = Some l ->
        pickListener Random (fun _ => Z.of_nat k) ls
        = Done (inl (l, Random, fun _ => Z.of_nat k))).
Proof.
  intros Hne. pose proof (len_pos ls Hne) as Hpos.
  assert (Hany : forall src, exists l,
             ls !! Z.to_nat (src O mod len ls) = Some l
             /\ pickListener Random src ls
                = Done (inl (l, Random, fun k => src (S k)))).
  { intros src. destruct (Intn_Done src (len ls) Hpos) as [HI Hr].
    destruct (index_Done ls _ Hr) as (l & Hl & Hlook).
    exists l. split; [exact Hlook|].
    apply pickListener_call; [exact Hne|].
    simpl. rewrite HI. simpl. rewrite Hl. reflexivity. }
  split; [exact Hany|].
  intros k l Hk. destruct (Hany (fun _ => Z.of_nat k)) as (l' & Hl' & Hp).
  assert (Hk' : (k < length ls)%nat) by (eapply lookup_lt_Some; eauto).
  rewrite Z.mod_small in Hl' by (unfold len; lia).
  rewrite Nat2Z.id, Hk in Hl'. injection Hl' as <-. exact Hp.
Qed.

Lemma Random_reaches_every_listener_witness :
  pickListener Random (fun _ => Z.of_nat 1) [example_listener; example_ready]
  = Done (inl (example_ready, Random, fun _ => Z.of_nat 1)).
Proof.
  destruct (Random_reaches_every_listener [example_listener; example_ready])
    as [_ H]; [discriminate|].
  apply (H 1%nat example_ready). reflexivity.
Defined.

Section RoundRobinSchedule.
Variable ls : list Listener.
Variable src : Source.
Hypothesis nonempty : ls <> [].
Hypothesis int_len : len ls < 2 ^ 63.

(** The index reached [j] calls after the cursor stood at [i]. *)
Local Abbreviation slot i j := ((i + 1 + Z.of_nat j) mod len ls).

Lemma slot_next (i : Z) (j : nat) :
  slot ((i + 1) mod len ls) j = slot i (S j).
Proof.
  pose proof (len_pos ls nonempty).
  rewrite <- !Z.add_assoc, Z.add_mod_idemp_l by lia. f_equal. lia.
Qed.

Lemma picks_RoundRobin (k : nat) :
  forall i, 0 <= i < 2 ^ 63 - 1 ->
  exists out,
    picks k (RoundRobin i) src ls = Done (inl out)
    /\ length out = k
    /\ forall j, (j < k)%nat ->
         exists l, ls !! Z.to_nat (slot i j) = Some l
                   /\ out !! j = Some (l, RoundRobin (slot i j)).
Proof.
  pose proof (len_pos ls nonempty) as Hpos.
  induction k as [| k IH]; intros i Hi.
  - exists []. repeat split. intros j Hj. lia.
  - destruct (call_RoundRobin i src ls Hi nonempty) as (Hr & l0 & Hl0 & Hc).
    destruct (IH ((i + 1) mod len ls)) as (out & Hout & Hlen & Hsched); [lia|].
    exists ((l0, RoundRobin ((i + 1) mod len ls)) :: out).
    rewrite (picks_step k _ _ _ _ _ _ (pickListener_call _ _ _ _ _ _ nonempty Hc)).
    rewrite Hout. split; [reflexivity|]. split; [simpl; now rewrite Hlen|].
    intros [| j] Hj.
    + exists l0. replace (slot i 0) with ((i + 1) mod len ls)
        by (f_equal; lia). auto.
    + destruct (Hsched j) as (l & Hl & Ho); [lia|].
      exists l. rewrite <- slot_next. auto.
Qed.

(** Within [len ls] consecutive calls each index comes up exactly once. *)
Lemma slot_covers (i : Z) (t : nat) :
  (t < length ls)%nat ->
  exists j, (j < length ls)%nat /\ slot i j = Z.of_nat t
            /\ forall j', (j' < length ls)%nat -> slot i j' = Z.of_nat t ->
                          j' = j.
Proof.
  intros Ht. pose proof (len_pos ls nonempty) as Hpos.
  assert (Hn : len ls = Z.of_nat (length ls)) by reflexivity.
  pose proof (Z.mod_pos_bound (Z.of_nat t - i - 1) (len ls) Hpos) as Hb.
  exists (Z.to_nat ((Z.of_nat t - i - 1) mod len ls)).
  assert (Hslot : slot i (Z.to_nat ((Z.of_nat t - i - 1) mod len ls))
                  = Z.of_nat t).
  { rewrite Z2Nat.id by lia. rewrite Z.add_mod_idemp_r by lia.
    replace (i + 1 + (Z.of_nat t - i - 1)) with (Z.of_nat t) by lia.
    apply Z.mod_small. lia. }
  split; [lia | split; [exact Hslot|]].
  intros j' Hj' Hs. rewrite <- Hslot in Hs.
  set (d := (Z.of_nat t - i - 1) mod len ls) in *.
  assert (Hd : Z.to_nat d = Z.to_nat d) by reflexivity.
  rewrite Z2Nat.id in Hs by lia.
  assert (Hdiff : (Z.of_nat j' - d) mod len ls = 0).
  { replace (Z.of_nat j' - d) with ((i + 1 + Z.of_nat j') - (i + 1 + d)) by lia.
    rewrite Zminus_mod, Hs, Z.sub_diag. apply Z.mod_0_l. lia. }
  apply Z.mod_divide in Hdiff; [|lia]. destruct Hdiff as [q Hq].
  assert (q = 0) by nia. lia.
Qed.
End RoundRobinSchedule.

(** Round-robin over any non-empty slice: [k] consecutive calls never fail,
    draw nothing from the random source, and the [j]-th of them returns the
    listener at index [(i + 1 + j) % len]; so any [len] consecutive calls
    return every listener of the slice exactly once. *)
Theorem RoundRobin_schedule (ls : list Listener) (src : Source) (i : Z)
    (k : nat) :
  ls <> [] -> len ls < 2 ^ 63 -> 0 <= i < 2 ^ 63 - 1 ->
  (exists out,
     picks k (RoundRobin i) src ls = Done (inl out)
     /\ length out = k
     /\ forall j, (j < k)%nat ->
          exists l,
            ls !! Z.to_nat ((i + 1 + Z.of_nat j) mod len ls) = Some l
            /\ out !! j
               = Some (l, RoundRobin ((i + 1 + Z.of_nat j) mod len ls)))
  /\ (forall t, (t < length ls)%nat ->
        exists j, (j < length ls)%nat
                  /\ (i + 1 + Z.of_nat j) mod len ls = Z.of_nat t
                  /\ forall j', (j' < length ls)%nat ->
                       (i + 1 + Z.of_nat j') mod len ls = Z.of_nat t ->
                       j' = j).
Proof.
  intros Hne Hlen Hi. split.
  - now apply picks_RoundRobin.
  - intros t Ht. now apply slot_covers.
Qed.

Lemma RoundRobin_schedule_witness :
  let ls := [example_listener; example_ready] in
  (exists out,
     picks 3 (RoundRobin 0) (fun _ => 0) ls = Done (inl out)
     /\ length out = 3%nat
     /\ forall j, (j < 3)%nat ->
          exists l,
            ls !! Z.to_nat ((0 + 1 + Z.of_nat j) mod len ls) = Some l
            /\ out !! j
               = Some (l, RoundRobin ((0 + 1 + Z.of_nat j) mod len ls)))
  /\ (forall t, (t < length ls)%nat ->
        exists j, (j < length ls)%nat
                  /\ (0 + 1 + Z.of_nat j) mod len ls = Z.of_nat t
                  /\ forall j', (j' < length ls)%nat ->
                       (0 + 1 + Z.of_nat j') mod len ls = Z.of_nat t ->
                       j' = j).
Proof.
  intros ls.
  apply (RoundRobin_schedule ls (fun _ => 0) 0 3).
  - discriminate.
  - reflexivity.
  - lia.
Defined.

(** ** The dispatcher, beyond the all-unhealthy pool *)

Lemma select_loop_exit (fuel : nat) (s : Server) (b : BalancingAlgorithm)
    (src : Source) (l : Listener) :
  unhealthy s (id_ l) = false ->
  select_loop fuel s b src (Some l) = Some (Done (inl (Some l, b, src))).
Proof. intros H. destruct fuel; simpl; rewrite H; reflexivity. Qed.

(** Whatever the loop returns as selected is registered and not marked
    unhealthy. *)
Lemma select_loop_selected (s : Server) (fuel : nat) :
  forall b src cur l b' src',
    (forall l0, cur = Some l0 -> l0 ∈ listeners s) ->
    select_loop fuel s b src cur = Some (Done (inl (Some l, b', src'))) ->
    l ∈ listeners s /\ unhealthy s (id_ l) = false.
Proof.
  induction fuel as [| fuel IH]; intros b src cur l b' src' Hcur; simpl.
  - destruct cur as [l0|]; simpl; [|discriminate].
    destruct (unhealthy s (id_ l0)) eqn:E; [discriminate|].
    intros [= <- _ _]. auto.
  - destruct (loop_condition s cur) eqn:E.
    + destruct (pickListener b src (listeners s))
        as [[[[l1 b1] src1] | e] | reason] eqn:Hp; try discriminate.
      apply IH. intros l0 [= <-].
      eapply pickListener_elem; eauto.
    + destruct cur as [l0|]; simpl in E; [|discriminate].
      intros [= <- _ _]. auto.
Qed.

Lemma select_loop_more_fuel (s : Server) (fuel : nat) :
  forall b src cur r extra,
    select_loop fuel s b src cur = Some r ->
    select_loop (fuel + extra) s b src cur = Some r.
Proof.
  induction fuel as [| fuel IH]; intros b src cur r extra; simpl.
  - destruct (loop_condition s cur) eqn:E; [discriminate|].
    intros H. destruct extra; simpl; rewrite E; exact H.
  - destruct (loop_condition s cur); [|auto].
    destruct (pickListener b src (listeners s))
      as [[[[l1 b1] src1] | e] | reason]; auto.
Qed.

Lemma pickListener_error (b : BalancingAlgorithm) (src : Source)
    (ls : list Listener) (e : error) :
  pickListener b src ls = Done (inr e) -> ls = [].
Proof.
  unfold pickListener. destruct (Z.eqb_spec (len ls) 0) as [E|_].
  - intros _. now apply len_zero.
  - destruct (call b src ls); discriminate.
Qed.

Lemma select_loop_error (s : Server) (fuel : nat) :
  forall b src cur e,
    select_loop fuel s b src cur = Some (Done (inr e)) -> listeners s = [].
Proof.
  induction fuel as [| fuel IH]; intros b src cur e; simpl.
  - destruct (loop_condition s cur); discriminate.
  - destruct (loop_condition s cur); [|discriminate].
    destruct (pickListener b src (listeners s))
      as [[[[l1 b1] src1] | e1] | reason] eqn:Hp; try discriminate.
    + apply IH.
    + intros _. eapply pickListener_error; eauto.
Qed.

(** What [Server.handle] can have done when it returns.  Either it chose no
    listener: then nothing was forwarded, the answer is a 503, and the
    server was stopped or had no listener at all.  Or it chose one: then the
    server was running, the listener is registered and was not marked
    unhealthy when the loop tested it, and the answer is the one
    [Listener.handle] of that listener wrote. *)
Theorem Server_handle_outcomes
    SplitHostPort IP_String Itoa NewRequest_host Do
    (fuel : nat) (s : Server) (src : Source) (w : ResponseWriter) (r : Request)
    (served : Served) :
  Server_handle SplitHostPort IP_String Itoa NewRequest_host Do fuel s src w r
  = Some (Done served) ->
  match chosen served with
  | None =>
      forwarded served = []
      /\ ((stopped s = true
           /\ response served
              = http_Error w "server is stopped" StatusServiceUnavailable)
          \/ (stopped s = false /\ listeners s = []
              /\ response served
                 = http_Error w "load balancer internal error"
                     StatusServiceUnavailable))
  | Some l =>
      stopped s = false /\ l ∈ listeners s /\ unhealthy s (id_ l) = false
      /\ exists h,
           Listener_handle SplitHostPort IP_String Itoa NewRequest_host Do
             l w r = Done h
           /\ response served = writer h /\ forwarded served = sent h
  end.
Proof.
  unfold Server_handle. destruct (stopped s) eqn:Hst.
  - intros [= <-]. simpl. auto.
  - destruct (select_loop fuel s (balancingAlgorithm s) src None)
      as [[[[[[l|] b'] src'] | e] | reason] |] eqn:Hsel; try discriminate.
    + destruct (Listener_handle _ _ _ _ _ l w r) as [h|] eqn:Hh; simpl;
        [|discriminate].
      intros [= <-]. simpl.
      destruct (select_loop_selected s fuel (balancingAlgorithm s) src None
                  l b' src' ltac:(intros l0 H0; discriminate H0) Hsel)
        as [Hin Hok].
      repeat split; eauto.
    + intros [= <-]. simpl. split; [reflexivity|]. right.
      repeat split. eapply select_loop_error; eauto.
Qed.

Lemma Server_handle_outcomes_witness :
  exists served,
    Server_handle GoLib.SplitHostPort GoLib.IP_String GoLib.Itoa
      GoLib.NewRequest_host example_upstream 1
      (example_pool [example_ready] (RoundRobin 0)) (fun _ => 0)
      newResponseWriter (example_request "127.0.0.1:8080")
    = Some (Done served)
    /\ chosen served = Some example_ready
    /\ example_ready ∈ listeners (example_pool [example_ready] (RoundRobin 0))
    /\ unhealthy (example_pool [example_ready] (RoundRobin 0))
         (id_ example_ready) = false.
Proof.
  eexists. split; [reflexivity|]. split; [reflexivity|].
  pose proof (Server_handle_outcomes GoLib.SplitHostPort GoLib.IP_String
                GoLib.Itoa GoLib.NewRequest_host example_upstream 1
                (example_pool [example_ready] (RoundRobin 0)) (fun _ => 0)
                newResponseWriter (example_request "127.0.0.1:8080") _
                eq_refl) as (_ & Hin & Hok & _).
  split; [exact Hin | exact Hok].
Defined.

Lemma select_loop_step (s : Server) (fuel : nat) (b b' : BalancingAlgorithm)
    (src src' : Source) (cur : option Listener) (l : Listener) :
  loop_condition s cur = true ->
  pickListener b src (listeners s) = Done (inl (l, b', src')) ->
  select_loop (S fuel) s b src cur = select_loop fuel s b' src' (Some l).
Proof. intros Hc Hp. simpl. rewrite Hc, Hp. reflexivity. Qed.

Section RoundRobinDispatch.
Variable s : Server.
Variable src : Source.
Hypothesis nonempty : listeners s <> [].
Hypothesis int_len : len (listeners s) < 2 ^ 63.

(** If the listener [d] steps after the cursor is healthy, the loop leaves
    with a healthy listener after at most [d + 1] selections. *)
Lemma select_loop_RoundRobin_reaches (d : nat) :
  forall i cur lh,
    0 <= i < 2 ^ 63 - 1 ->
    loop_condition s cur = true ->
    listeners s !! Z.to_nat ((i + 1 + Z.of_nat d) mod len (listeners s))
    = Some lh ->
    unhealthy s (id_ lh) = false ->
    exists l i',
      select_loop (S d) s (RoundRobin i) src cur
      = Some (Done (inl (Some l, RoundRobin i', src)))
      /\ l ∈ listeners s /\ unhealthy s (id_ l) = false.
Proof.
  pose proof (len_pos _ nonempty) as Hpos.
  induction d as [| d IH]; intros i cur lh Hi Hcur Hlh Hok;
    destruct (call_RoundRobin i src (listeners s) Hi nonempty)
      as (Hr & l0 & Hl0 & Hc);
    pose proof (pickListener_call _ _ _ _ _ _ nonempty Hc) as Hp;
    rewrite (select_loop_step s _ _ _ _ _ _ _ Hcur Hp).
  - replace (i + 1 + Z.of_nat 0) with (i + 1) in Hlh by lia.
    rewrite Hlh in Hl0. injection Hl0 as <-.
    exists lh, ((i + 1) mod len (listeners s)).
    rewrite select_loop_exit by exact Hok.
    split; [reflexivity|]. split; [|exact Hok].
    eapply list_elem_of_lookup_2; eauto.
  - destruct (unhealthy s (id_ l0)) eqn:E.
    + apply (IH ((i + 1) mod len (listeners s)) (Some l0) lh);
        [lia | exact E | | exact Hok].
      rewrite (slot_next (listeners s) nonempty). exact Hlh.
    + exists l0, ((i + 1) mod len (listeners s)).
      rewrite select_loop_exit by exact E.
      split; [reflexivity|]. split; [|exact E].
      eapply list_elem_of_lookup_2; eauto.
Qed.
End RoundRobinDispatch.

(** Round-robin dispatch is bounded as soon as one listener is healthy: on
    a running server with a listener that is not marked unhealthy, the
    selection loop of [Server.handle] leaves after at most [len(listeners)]
    calls of the policy, with a registered listener that is not marked
    unhealthy, and the request is handed to that listener. *)
Theorem Server_handle_RoundRobin_bounded
    SplitHostPort IP_String Itoa NewRequest_host Do
    (s : Server) (src : Source) (w : ResponseWriter) (r : Request)
    (i : Z) (lh : Listener) :
  stopped s = false ->
  len (listeners s) < 2 ^ 63 ->
  balancingAlgorithm s = RoundRobin i -> 0 <= i < 2 ^ 63 - 1 ->
  lh ∈ listeners s -> unhealthy s (id_ lh) = false ->
  exists l i',
    l ∈ listeners s /\ unhealthy s (id_ l) = false
    /\ Server_handle SplitHostPort IP_String Itoa NewRequest_host Do
         (length (listeners s)) s src w r
       = Some (h ← Listener_handle SplitHostPort IP_String Itoa
                     NewRequest_host Do l w r;
               Done {| response := writer h; forwarded := sent h;
                       chosen := Some l;
                       server_after := with_algorithm s (RoundRobin i');
                       source_after := src |}).
Proof.
  intros Hrun Hlen Halg Hi Hin Hok.
  assert (Hne : listeners s <> []) by (intros E; rewrite E in Hin; inversion Hin).
  apply list_elem_of_lookup_1 in Hin as [t Ht].
  pose proof (lookup_lt_Some _ _ _ Ht) as Hlt.
  destruct (slot_covers (listeners s) Hne Hlen i t Hlt) as (d & Hd & Hslot & _).
  destruct (select_loop_RoundRobin_reaches s src Hne Hlen d i None lh Hi
              eq_refl) as (l & i' & Hsel & Hl & Hlok).
  { rewrite Hslot, Nat2Z.id. exact Ht. }
  { exact Hok. }
  exists l, i'. split; [exact Hl | split; [exact Hlok|]].
  unfold Server_handle. rewrite Hrun, Halg.
  replace (length (listeners s)) with (S d + (length (listeners s) - S d))%nat
    by lia.
  rewrite (select_loop_more_fuel s (S d) _ _ _ _ _ Hsel). reflexivity.
Qed.

Lemma Server_handle_RoundRobin_bounded_witness :
  let sick := {| id_ := "sick"; targetIp := []; targetPort := 8083;
                 healthCheckConfig := None; weight := 1; wg := Some 0 |} in
  let s := AddListener (example_server sick (RoundRobin 0)) example_ready in
  exists l i',
    l ∈ listeners s /\ unhealthy s (id_ l) = false
    /\ Server_handle GoLib.SplitHostPort GoLib.IP_String GoLib.Itoa
         GoLib.NewRequest_host example_upstream (length (listeners s)) s
         (fun _ => 0) newResponseWriter (example_request "127.0.0.1:8080")
       = Some (h ← Listener_handle GoLib.SplitHostPort GoLib.IP_String
                     GoLib.Itoa GoLib.NewRequest_host example_upstream l
                     newResponseWriter (example_request "127.0.0.1:8080");
               Done {| response := writer h; forwarded := sent h;
                       chosen := Some l;
                       server_after := with_algorithm s (RoundRobin i');
                       source_after := fun _ => 0 |}).
Proof.
  intros sick s.
  apply (Server_handle_RoundRobin_bounded GoLib.SplitHostPort GoLib.IP_String
           GoLib.Itoa GoLib.NewRequest_host example_upstream s (fun _ => 0)
           newResponseWriter (example_request "127.0.0.1:8080") 0
           example_ready).
  - reflexivity.
  - reflexivity.
  - reflexivity.
  - lia.
  - apply list_elem_of_lookup_2 with 1%nat. reflexivity.
  - reflexivity.
Defined.

(** ** Listener.handle, beyond the two forwarded headers *)

Lemma with_wg_same (l : Listener) (g : Z) :
  wg l = Some g -> with_wg l (Some g) = l.
Proof. destruct l; simpl; intros ->; reflexivity. Qed.

Lemma handle_body_at_most_one
    SplitHostPort IP_String Itoa NewRequest_host Do
    (l : Listener) (w : ResponseWriter) (r : Request) :
  (length (handle_body SplitHostPort IP_String Itoa NewRequest_host Do
             l w r).1.2 <= 1)%nat.
Proof.
  unfold handle_body.
  destruct (http_NewRequest _ _ _ _); simpl; [|lia].
  destruct (SplitHostPort (Host r)) as [[host port0]|]; simpl; [|lia].
  destruct (Do _); simpl; lia.
Qed.

(** The in-flight counter is incremented on entry and decremented on every
    way out: with an initialised counter [handle] returns on every path (it
    never panics), leaves the listener exactly as it found it, and has
    contacted the upstream at most once. *)
Theorem Listener_handle_counter_balanced
    SplitHostPort IP_String Itoa NewRequest_host Do
    (l : Listener) (w : ResponseWriter) (r : Request) (g : Z) :
  wg l = Some g -> 0 <= g ->
  exists h,
    Listener_handle SplitHostPort IP_String Itoa NewRequest_host Do l w r
    = Done h
    /\ after h = l
    /\ (length (sent h) <= 1)%nat.
Proof.
  intros Hwg Hg.
  pose proof (handle_body_at_most_one SplitHostPort IP_String Itoa
                NewRequest_host Do l w r) as Hone.
  unfold Listener_handle. rewrite Hwg. simpl.
  destruct (Z.ltb_spec (g + 1) 0); [lia|]. simpl.
  destruct (handle_body _ _ _ _ _ l w r) as [[w' out] r'].
  destruct (Z.ltb_spec (g + 1 + -1) 0); [lia|]. simpl.
  eexists. split; [reflexivity|]. simpl. split; [|exact Hone].
  replace (g + 1 + -1) with g by lia. now apply with_wg_same.
Qed.

Lemma Listener_handle_counter_balanced_witness :
  exists h,
    Listener_handle GoLib.SplitHostPort GoLib.IP_String GoLib.Itoa
      GoLib.NewRequest_host (fun _ => None) (with_wg example_listener (Some 4))
      newResponseWriter (example_request "127.0.0.1:8080") = Done h
    /\ after h = with_wg example_listener (Some 4)
    /\ (length (sent h) <= 1)%nat.
Proof.
  apply (Listener_handle_counter_balanced GoLib.SplitHostPort GoLib.IP_String
           GoLib.Itoa GoLib.NewRequest_host (fun _ => None)
           (with_wg example_listener (Some 4)) newResponseWriter
           (example_request "127.0.0.1:8080") 4).
  - reflexivity.
  - lia.
Defined.

(** The request handed to the upstream is the inbound one redirected: same
    method (GET for an empty one), same body, the listener's target as URL,
    and every header other than the two forwarding headers exactly as it
    came in.  The inbound request does not stay as it came in: it shares
    its header map with the outbound request, so after the call it carries
    the two forwarding headers as well. *)
Theorem forwarded_request_fidelity
    SplitHostPort IP_String Itoa NewRequest_host Do
    (l : Listener) (w : ResponseWriter) (r : Request)
    (h : Handled) (p : Request) :
  Listener_handle SplitHostPort IP_String Itoa NewRequest_host Do l w r
  = Done h ->
  sent h = [p] ->
  Method p = (if String.eqb (Method r) "" then "GET" else Method r)
  /\ URL p = "http://" +:+ getTargetAddr IP_String Itoa l
  /\ Body p = Body r
  /\ (forall key, key <> "X-Forwarded-For" -> key <> "X-Forwarded-Port" ->
        Header p !! key = Header r !! key)
  /\ Header (inbound h) = Header p.
Proof.
  intros Hh Hs.
  apply Listener_handle_Done in Hh as [Hb _]. rewrite Hs in Hb.
  destruct (http_NewRequest NewRequest_host (Method r)
              ("http://" +:+ getTargetAddr IP_String Itoa l) (Body r))
    as [proxyReq|] eqn:Hnew.
  - rewrite (handle_body_built _ _ _ _ _ l w r proxyReq Hnew) in Hb.
    simpl in Hb.
    destruct (SplitHostPort (Host r)) as [[host port0]|]; [|discriminate].
    injection Hb as _ Hp Hin. rewrite Hin. subst p.
    unfold http_NewRequest in Hnew.
    destruct (NewRequest_host _ _); [|discriminate].
    injection Hnew as <-. simpl. repeat split.
    intros key H1 H2. unfold Set_.
    rewrite !lookup_insert_ne by congruence. reflexivity.
  - unfold handle_body in Hb. rewrite Hnew in Hb. discriminate.
Qed.

Lemma forwarded_request_fidelity_witness :
  exists h p,
    Listener_handle GoLib.SplitHostPort GoLib.IP_String GoLib.Itoa
      GoLib.NewRequest_host example_upstream example_ready
      newResponseWriter (example_request "127.0.0.1:8080") = Done h
    /\ sent h = [p]
    /\ Method p = "GET"
    /\ URL p = "http://127.0.0.1:8082"
    /\ Header (inbound h) !! "X-Forwarded-Port" = Some ["8080"].
Proof.
  eexists. eexists.
  split; [reflexivity|]. split; [reflexivity|].
  edestruct (forwarded_request_fidelity GoLib.SplitHostPort GoLib.IP_String
               GoLib.Itoa GoLib.NewRequest_host example_upstream example_ready
               newResponseWriter (example_request "127.0.0.1:8080"))
    as (Hm & Hu & _ & _ & Hin).
  - reflexivity.
  - reflexivity.
  - split; [exact Hm | split; [exact Hu|]].
    rewrite Hin. reflexivity.
Defined.

(** [handle] answers with one of two statuses.  It answers 200 exactly when
    one request went to the upstream and the call succeeded; every failure
    is a 500: with the message [unable to create forwarded request] and
    nothing sent, or with [error forwarding request] after the one call
    failed.  A failed call is not retried. *)
Theorem Listener_handle_statuses
    SplitHostPort IP_String Itoa NewRequest_host Do
    (l : Listener) (w : ResponseWriter) (r : Request) (h : Handled) :
  wroteHeader w = false ->
  Listener_handle SplitHostPort IP_String Itoa NewRequest_host Do l w r
  = Done h ->
  (exists p resp,
     sent h = [p] /\ Do p = Some resp
     /\ client_status (writer h) = StatusOK)
  \/ (client_status (writer h) = StatusInternalServerError
      /\ ((sent h = []
           /\ client_body (writer h)
              = written w +:+ "unable to create forwarded request"
                +:+ String "010"%char "")
          \/ (exists p,
                sent h = [p] /\ Do p = None
                /\ client_body (writer h)
                   = written w +:+ "error forwarding request"
                     +:+ String "010"%char ""))).
Proof.
  intros Hw Hh. apply Listener_handle_Done in Hh as [Hb _].
  destruct (http_Error_fresh w "unable to create forwarded request"
              StatusInternalServerError Hw) as [Hst1 Hbody1].
  destruct (http_Error_fresh w "error forwarding request"
              StatusInternalServerError Hw) as [Hst2 Hbody2].
  destruct (http_NewRequest NewRequest_host (Method r)
              ("http://" +:+ getTargetAddr IP_String Itoa l) (Body r))
    as [proxyReq|] eqn:Hnew.
  - rewrite (handle_body_built _ _ _ _ _ l w r proxyReq Hnew) in Hb.
    simpl in Hb.
    destruct (SplitHostPort (Host r)) as [[host port0]|].
    + injection Hb as Hwr Hs _.
      destruct (Do _) as [resp|] eqn:Hdo in Hwr.
      * left. eexists _, resp. rewrite Hs, Hwr.
        split; [reflexivity | split; [exact Hdo|]].
        apply io_Copy_fresh, Hw.
      * right. rewrite Hwr. split; [exact Hst2|]. right.
        eexists. rewrite Hs. split; [reflexivity | split; [exact Hdo | exact Hbody2]].
    + injection Hb as Hwr Hs _. right. rewrite Hwr, Hs. auto.
  - unfold handle_body in Hb. rewrite Hnew in Hb.
    injection Hb as Hwr Hs _. right. rewrite Hwr, Hs. auto.
Qed.

Lemma Listener_handle_statuses_witness :
  exists h p,
    Listener_handle GoLib.SplitHostPort GoLib.IP_String GoLib.Itoa
      GoLib.NewRequest_host (fun _ => None) example_ready
      newResponseWriter (example_request "127.0.0.1:8080") = Done h
    /\ sent h = [p]
    /\ client_status (writer h) = 500
    /\ client_body (writer h)
       = "error forwarding request" +:+ String "010"%char "".
Proof.
  eexists. eexists. split; [reflexivity|]. split; [reflexivity|].
  edestruct (Listener_handle_statuses GoLib.SplitHostPort GoLib.IP_String
               GoLib.Itoa GoLib.NewRequest_host (fun _ => None) example_ready
               newResponseWriter (example_request "127.0.0.1:8080"))
    as [(p & resp & _ & Hdo & _) | (Hst & [(Hs & _) | (p & _ & _ & Hbody)])].
  - reflexivity.
  - reflexivity.
  - discriminate Hdo.
  - discriminate Hs.
  - split; [exact Hst | exact Hbody].
Defined.

(** ** Stop, Start and AddListener *)

Lemma Stop_server (s : Server) :
  server (Stop s) = if stopped s then s else store_stopped s true.
Proof.
  unfold Stop. destruct (stopped s); [reflexivity|].
  simpl. destruct (wait_all (listeners s)). reflexivity.
Qed.

(** With every counter initialised the loop over the listeners either gets
    through (all counters at zero) or parks at the first counter that is
    not zero, having waited on the listeners before it. *)
Lemma wait_all_initialised (ls : list Listener) :
  Forall (fun l => exists n, wg l = Some n) ls ->
  (wait_all ls = (id_ <$> ls, StopReturns None)
   /\ Forall (fun l => wg l = Some 0) ls)
  \/ (exists (pre : list Listener) (l : Listener) (post : list Listener) (n : Z),
        ls = (pre ++ l :: post)%list
        /\ Forall (fun l => wg l = Some 0) pre
        /\ wg l = Some n /\ n <> 0
        /\ wait_all ls = (id_ <$> (pre ++ [l])%list, StopWaits)).
Proof.
  induction 1 as [| l ls [n Hn] _ IH]; simpl.
  - left. auto.
  - rewrite Hn. destruct (Z.eqb_spec n 0) as [-> | Hne].
    + destruct IH as [[-> Hall] | (pre & l' & post & n' & -> & Hpre & Hl' & Hn' & ->)].
      * left. auto.
      * right. exists (l :: pre), l', post, n'. repeat split; auto.
    + right. exists [], l, ls, n. repeat split; auto.
Qed.

(** [Stop] on a running server whose counters are initialised: the flag is
    stored and nothing else changes; [Stop] returns nil exactly when every
    counter is at zero, after waiting on every listener in registration
    order; otherwise it is parked on the first listener with requests in
    flight.  It never returns an error and never panics. *)
Theorem Stop_with_counters (s : Server) :
  stopped s = false ->
  Forall (fun l => exists n, wg l = Some n) (listeners s) ->
  server (Stop s) = store_stopped s true
  /\ ((ending (Stop s) = StopReturns None
       /\ drained (Stop s) = id_ <$> listeners s
       /\ Forall (fun l => wg l = Some 0) (listeners s))
      \/ (ending (Stop s) = StopWaits
          /\ exists (pre : list Listener) (l : Listener) (post : list Listener) (n : Z),
               listeners s = (pre ++ l :: post)%list
               /\ Forall (fun l => wg l = Some 0) pre
               /\ wg l = Some n /\ n <> 0
               /\ drained (Stop s) = id_ <$> (pre ++ [l])%list)).
Proof.
  intros Hrun Hall. rewrite Stop_server, Hrun. split; [reflexivity|].
  unfold Stop. rewrite Hrun. simpl.
  destruct (wait_all_initialised _ Hall)
    as [[-> Hz] | (pre & l & post & n & Hls & Hpre & Hl & Hn & ->)]; simpl.
  - left. auto.
  - right. split; [reflexivity|]. exists pre, l, post, n. auto.
Qed.

Lemma Stop_with_counters_witness :
  let busy := with_wg example_listener (Some 2) in
  let s := example_pool [example_ready; busy; example_ready] Random in
  server (Stop s) = store_stopped s true
  /\ ending (Stop s) = StopWaits
  /\ drained (Stop s) = [id_ example_ready; id_ busy].
Proof.
  intros busy s.
  destruct (Stop_with_counters s) as [Hs [(He & _) | (He & _)]].
  - reflexivity.
  - repeat constructor; eexists; reflexivity.
  - discriminate He.
  - split; [exact Hs | split; [exact He | reflexivity]].
Defined.

(** [Stop] is final.  Whatever a call of [Stop] did, the server it leaves
    has the same listeners, health marks and algorithm and is stopped; from
    then on [Stop] returns [ErrServerStopped] without waiting on any
    counter, [Server.handle] answers 503 without selecting or forwarding,
    and [Start] returns [ErrServerStopped] without probing. *)
Theorem Stop_is_final
    SplitHostPort IP_String Itoa NewRequest_host Do
    (s : Server) (fuel : nat) (src : Source) (w : ResponseWriter) (r : Request)
    (observe : nat -> Server) :
  let s1 := server (Stop s) in
  listeners s1 = listeners s
  /\ unhealthyListeners s1 = unhealthyListeners s
  /\ balancingAlgorithm s1 = balancingAlgorithm s
  /\ stopped s1 = true
  /\ Stop s1 = {| server := s1; drained := [];
                  ending := StopReturns (Some ErrServerStopped) |}
  /\ Server_handle SplitHostPort IP_String Itoa NewRequest_host Do
       fuel s1 src w r
     = Some (Done {| response := http_Error w "server is stopped"
                                   StatusServiceUnavailable;
                     forwarded := []; chosen := None;
                     server_after := s1; source_after := src |})
  /\ (observe O = s1 ->
      Start fuel observe
      = Some {| rounds := []; start_error := Some ErrServerStopped |}).
Proof.
  intros s1. pose proof (Stop_sets_flag s) as Hflag. fold s1 in Hflag.
  assert (Hsame : listeners s1 = listeners s
                  /\ unhealthyListeners s1 = unhealthyListeners s
                  /\ balancingAlgorithm s1 = balancingAlgorithm s).
  { unfold s1. rewrite Stop_server. destruct (stopped s); auto. }
  destruct Hsame as (H1 & H2 & H3).
  repeat split; try assumption.
  - now apply Stop_already_stopped.
  - now apply Server_handle_stopped.
  - intros Ho. unfold Start. rewrite Ho, Hflag. reflexivity.
Qed.

Lemma Stop_is_final_witness :
  let s1 := server (Stop (example_server example_listener Random)) in
  Start 3 (fun _ => s1)
  = Some {| rounds := []; start_error := Some ErrServerStopped |}.
Proof.
  intros s1.
  destruct (Stop_is_final GoLib.SplitHostPort GoLib.IP_String GoLib.Itoa
              GoLib.NewRequest_host example_upstream
              (example_server example_listener Random) 3 (fun _ => 0)
              newResponseWriter (example_request "127.0.0.1:8080")
              (fun _ => s1)) as (_ & _ & _ & _ & _ & _ & H).
  apply H. reflexivity.
Defined.

(** [AddListener] appends: it never refuses (not even on a stopped server)
    and changes neither the health marks, the flag nor the algorithm; the
    listeners before keep their places.  The round-robin cursor is taken
    modulo the new count: a listener added while the cursor stands on the
    last listener is the next one picked. *)
Theorem AddListener_appends (s : Server) (l : Listener) (src : Source)
    (i : Z) :
  (forall k, (k < length (listeners s))%nat ->
             listeners (AddListener s l) !! k = listeners s !! k)
  /\ listeners (AddListener s l) !! length (listeners s) = Some l
  /\ len (listeners (AddListener s l)) = len (listeners s) + 1
  /\ unhealthyListeners (AddListener s l) = unhealthyListeners s
  /\ stopped (AddListener s l) = stopped s
  /\ balancingAlgorithm (AddListener s l) = balancingAlgorithm s
  /\ (0 <= i < 2 ^ 63 - 1 -> i + 1 = len (listeners s) ->
      pickListener (RoundRobin i) src (listeners (AddListener s l))
      = Done (inl (l, RoundRobin (i + 1), src))).
Proof.
  simpl. split; [|split; [|split]].
  - intros k Hk. now apply lookup_app_l.
  - rewrite lookup_app_r by lia. now rewrite Nat.sub_diag.
  - unfold len. rewrite length_app. simpl. lia.
  - repeat split. intros Hi Hcur.
    assert (Hne : (listeners s ++ [l])%list <> []) by (now destruct (listeners s)).
    destruct (call_RoundRobin i src (listeners s ++ [l])%list Hi Hne)
      as (_ & l' & Hl' & Hc).
    assert (Hlen : len (listeners s ++ [l])%list = i + 2)
      by (unfold len in *; rewrite length_app; simpl; lia).
    rewrite Hlen in Hl', Hc. rewrite Z.mod_small in Hl', Hc by lia.
    rewrite lookup_app_r in Hl' by (unfold len in Hcur; lia).
    replace (Z.to_nat (i + 1) - length (listeners s))%nat with O in Hl'
      by (unfold len in Hcur; lia).
    injection Hl' as <-. now apply pickListener_call.
Qed.

Lemma AddListener_appends_witness :
  pickListener (RoundRobin 0) (fun _ => 0)
    (listeners (AddListener (example_pool [example_listener] (RoundRobin 0))
                  example_ready))
  = Done (inl (example_ready, RoundRobin (0 + 1), fun _ => 0)).
Proof.
  destruct (AddListener_appends (example_pool [example_listener] (RoundRobin 0))
              example_ready (fun _ => 0) 0) as (_ & _ & _ & _ & _ & _ & H).
  apply H; [lia | reflexivity].
Defined.

(** ** Health checks *)

(** The verdict of a probe.  A listener without health-check configuration
    is healthy without any request; a configured one is healthy exactly
    when its one GET request was answered with status 200.  The status
    field says [OK] exactly when there is no error, and every request sent
    is a plain GET of the probe URL: the target's IP with the configured
    port and path. *)
Theorem Listener_healthcheck_verdict IP_String Itoa NewRequest_host Do
    (l : Listener) :
  let response := (Listener_healthcheck IP_String Itoa NewRequest_host Do l).1 in
  let out := (Listener_healthcheck IP_String Itoa NewRequest_host Do l).2 in
  (err response = None <-> hstatus response = "OK")
  /\ (err response <> None <-> hstatus response = "ERROR")
  /\ (length out <= 1)%nat
  /\ (healthCheckConfig l = None -> err response = None /\ out = [])
  /\ (forall c, healthCheckConfig l = Some c ->
        (err response = None <->
         exists req resp,
           out = [req] /\ Do req = Some resp /\ StatusCode resp = StatusOK))
  /\ (forall req, req ∈ out ->
        exists c, healthCheckConfig l = Some c
                  /\ Method req = "GET"
                  /\ URL req = "http://" +:+ IP_String (targetIp l) +:+ ":"
                               +:+ Itoa (port c) +:+ path c
                  /\ Body req = "" /\ Header req = ∅).
Proof.
  unfold Listener_healthcheck.
  destruct (healthCheckConfig l) as [c|] eqn:Hc; simpl.
  2: { repeat split; try (intros req Hin; inversion Hin); naive_solver. }
  destruct (http_NewRequest NewRequest_host "GET"
              (healthcheck_url IP_String Itoa l c) "")
    as [req|] eqn:Hnew; simpl.
  2: { repeat split; try (intros req Hin; inversion Hin); naive_solver. }
  assert (Hreq : Method req = "GET"
                 /\ URL req = healthcheck_url IP_String Itoa l c
                 /\ Body req = "" /\ Header req = ∅).
  { unfold http_NewRequest in Hnew. simpl in Hnew.
    destruct (NewRequest_host _ _); [|discriminate].
    injection Hnew as <-. auto. }
  assert (Hsent : forall rq, rq ∈ [req] ->
            exists c0, Some c = Some c0 /\ Method rq = "GET"
              /\ URL rq = "http://" +:+ IP_String (targetIp l) +:+ ":"
                          +:+ Itoa (port c0) +:+ path c0
              /\ Body rq = "" /\ Header rq = ∅).
  { intros rq Hin. apply list_elem_of_singleton in Hin as ->. exists c.
    destruct Hreq as (? & ? & ? & ?). auto. }
  destruct (Do req) as [resp|] eqn:Hdo; simpl.
  - destruct (Z.eqb_spec (StatusCode resp) StatusOK) as [Hok | Hbad]; simpl;
      (split; [|split; [|split; [|split; [|split]]]]);
      try exact Hsent; try (simpl; lia); naive_solver.
  - (split; [|split; [|split; [|split; [|split]]]]);
      try exact Hsent; try (simpl; lia); naive_solver.
Qed.

(** A probe depends on nothing but the target's IP and the configured probe
    port and path: the configured timeout is never applied, and the target
    port, the weight, the identifier and the in-flight counter play no
    part. *)
Theorem Listener_healthcheck_depends_on IP_String Itoa NewRequest_host Do
    (l1 l2 : Listener) :
  targetIp l1 = targetIp l2 ->
  (fun c => (port c, path c)) <$> healthCheckConfig l1
  = (fun c => (port c, path c)) <$> healthCheckConfig l2 ->
  Listener_healthcheck IP_String Itoa NewRequest_host Do l1
  = Listener_healthcheck IP_String Itoa NewRequest_host Do l2.
Proof.
  intros Hip Hcfg. unfold Listener_healthcheck, healthcheck_url.
  destruct (healthCheckConfig l1) as [[p1 pa1 t1]|],
           (healthCheckConfig l2) as [[p2 pa2 t2]|];
    simpl in *; try discriminate; [|reflexivity].
  injection Hcfg as -> ->. rewrite Hip. reflexivity.
Qed.

Lemma Listener_healthcheck_depends_on_witness :
  Listener_healthcheck GoLib.IP_String GoLib.Itoa GoLib.NewRequest_host
    example_upstream
    (WithListenerHealthCheck 8082 "/health" 5000000000 example_listener)
  = Listener_healthcheck GoLib.IP_String GoLib.Itoa GoLib.NewRequest_host
      example_upstream
      (WithWeight 9 (WithListenerHealthCheck 8082 "/health" 1 example_ready)).
Proof.
  apply Listener_healthcheck_depends_on; reflexivity.
Defined.

Lemma apply_configs_weights_only (config : list ListenerConfig) :
  Forall (fun c => exists w, c = WithWeight w) config ->
  forall l, healthCheckConfig (apply_configs config l) = healthCheckConfig l.
Proof.
  induction 1 as [| c config [w ->] _ IH]; intros l; simpl; [reflexivity|].
  now rewrite IH.
Qed.

(** A listener created without [WithListenerHealthCheck] is reported
    healthy by every probe, whatever its upstream does, and no request is
    sent to it. *)
Theorem unconfigured_listener_always_healthy
    SplitHostPort ParseIP Atoi IP_String Itoa NewRequest_host Do
    fresh targetAddr config (l : Listener) :
  Forall (fun c => exists w, c = WithWeight w) config ->
  NewListener SplitHostPort ParseIP Atoi fresh targetAddr config = inl l ->
  Listener_healthcheck IP_String Itoa NewRequest_host Do l
  = ({| err := None; hstatus := "OK" |}, []).
Proof.
  intros Hc Hnew. apply NewListener_inl in Hnew as (pi & pp & ->).
  unfold Listener_healthcheck. now rewrite apply_configs_weights_only.
Qed.

Lemma unconfigured_listener_always_healthy_witness :
  Listener_healthcheck GoLib.IP_String GoLib.Itoa GoLib.NewRequest_host
    (fun _ => None) (WithWeight 5 example_listener)
  = ({| err := None; hstatus := "OK" |}, []).
Proof.
  apply (unconfigured_listener_always_healthy GoLib.SplitHostPort
           GoLib.ParseIP GoLib.Atoi GoLib.IP_String GoLib.Itoa
           GoLib.NewRequest_host (fun _ => None)
           "6ba7b810-9dad-11d1-80b4-00c04fd430c8" "127.0.0.1:8082"
           [WithWeight 5]).
  - repeat constructor. eexists. reflexivity.
  - reflexivity.
Defined.

(** What the probing goroutine does to the map of unhealthy listeners.  A
    healthy verdict deletes the listener's identifier and cannot fail, not
    even on the nil map, which stays nil.  An unhealthy verdict marks the
    identifier in an allocated map, and panics on the nil map.  No other
    identifier is touched. *)
Theorem healthcheck_task_marks IP_String Itoa NewRequest_host Do
    (m : gomap) (l : Listener) :
  let verdict :=
    err (Listener_healthcheck IP_String Itoa NewRequest_host Do l).1 in
  let result := (healthcheck_task IP_String Itoa NewRequest_host Do m l).1 in
  (verdict = None ->
   exists m', result = Done m'
              /\ map_index m' (id_ l) = false
              /\ (forall key, key <> id_ l -> map_index m' key = map_index m key)
              /\ (m' = None <-> m = None))
  /\ (verdict <> None ->
      match m with
      | Some _ =>
          exists entries, result = Done (Some entries)
            /\ map_index (Some entries) (id_ l) = true
            /\ (forall key, key <> id_ l ->
                  map_index (Some entries) key = map_index m key)
      | None => result = Panics "assignment to entry in nil map"
      end).
Proof.
  unfold healthcheck_task.
  destruct (Listener_healthcheck IP_String Itoa NewRequest_host Do l)
    as [response out]. simpl.
  destruct (err response) as [e|]; split; try congruence; intros _.
  - destruct m as [entries|]; simpl; [|reflexivity].
    eexists. split; [reflexivity|]. unfold map_index. split.
    + now rewrite lookup_insert_eq.
    + intros key Hk. now rewrite lookup_insert_ne by congruence.
  - exists (map_delete m (id_ l)). split; [reflexivity|].
    destruct m as [entries|]; simpl; [|repeat split; auto].
    unfold map_index.
    split; [now rewrite lookup_delete_eq | split].
    + intros key Hk. now rewrite lookup_delete_ne by congruence.
    + split; discriminate.
Qed.

Lemma healthcheck_task_marks_witness :
  let l := WithListenerHealthCheck 8082 "/health" 5 example_listener in
  (healthcheck_task GoLib.IP_String GoLib.Itoa GoLib.NewRequest_host
     example_upstream None l).1
  = Panics "assignment to entry in nil map".
Proof.
  intros l.
  destruct (healthcheck_task_marks GoLib.IP_String GoLib.Itoa
              GoLib.NewRequest_host example_upstream None l) as [_ H].
  apply H. discriminate.
Defined.

(** On an allocated map the goroutine returns, and the mark of the listener
    afterwards is the verdict of the probe. *)
Lemma healthcheck_task_allocated IP_String Itoa NewRequest_host Do
    (entries : gmap string bool) (l : Listener) (m' : gomap) :
  (healthcheck_task IP_String Itoa NewRequest_host Do (Some entries) l).1
  = Done m' ->
  map_index m' (id_ l)
  = match err (Listener_healthcheck IP_String Itoa NewRequest_host Do l).1 with
    | Some _ => true
    | None => false
    end.
Proof.
  unfold healthcheck_task.
  destruct (Listener_healthcheck IP_String Itoa NewRequest_host Do l)
    as [response out]. simpl.
  destruct (err response) as [e|]; intros [= <-]; unfold map_index; simpl.
  - now rewrite lookup_insert_eq.
  - now rewrite lookup_delete_eq.
Qed.

Lemma call_single (b : BalancingAlgorithm) (src : Source) (l : Listener) :
  sound_for b [l] ->
  exists b' src', pickListener b src [l] = Done (inl (l, b', src')).
Proof.
  intros Hb.
  destruct (call_sound b src [l]) as (l' & b' & src' & Hc & _);
    [discriminate | reflexivity | exact Hb |].
  pose proof (call_elem _ _ _ _ _ _ Hc) as Hin.
  apply list_elem_of_singleton in Hin as ->.
  exists b', src'. apply pickListener_call; [discriminate | exact Hc].
Qed.

Lemma pickListener_WeightedRoundRobin_idle (src : Source) (l : Listener) :
  weight l <= 0 ->
  pickListener WeightedRoundRobin src [l] = Panics "invalid argument to Intn".
Proof.
  intros Hw. unfold pickListener. change (len [l] =? 0) with false.
  cbn [call]. unfold flatSlice.
  rewrite flatten_from_no_weight by (repeat constructor; exact Hw).
  reflexivity.
Qed.

Lemma select_loop_panics (s : Server) (fuel : nat) (b : BalancingAlgorithm)
    (src : Source) (cur : option Listener) (reason : string) :
  loop_condition s cur = true ->
  pickListener b src (listeners s) = Panics reason ->
  select_loop (S fuel) s b src cur = Some (Panics reason).
Proof. intros Hc Hp. simpl. rewrite Hc, Hp. reflexivity. Qed.

(** Probing decides dispatch.  On a running server with one listener and an
    allocated map, once a probe of the listener has reported:
    an unhealthy verdict leaves [Server.handle] without an answer, whatever
    the policy; a healthy verdict makes [Server.handle] hand the next request
    to the listener after a single selection when the policy can select
    (uniform-random, round-robin with a cursor a Go [int] reaches by counting
    up from 0, weighted with a positive weight), and with the weighted
    policy and a weight of zero or below [Server.handle] panics in
    [rand.Intn(0)] instead. *)
Theorem probe_decides_dispatch
    SplitHostPort IP_String Itoa NewRequest_host Do
    (s : Server) (l : Listener) (m' : gomap) (fuel : nat) (src : Source)
    (w : ResponseWriter) (r : Request) :
  stopped s = false ->
  listeners s = [l] ->
  (healthcheck_task IP_String Itoa NewRequest_host Do
     (Some (unhealthyListeners s)) l).1 = Done m' ->
  match err (Listener_healthcheck IP_String Itoa NewRequest_host Do l).1 with
  | None =>
      (sound_for (balancingAlgorithm s) [l] ->
       exists b' src',
         Server_handle SplitHostPort IP_String Itoa NewRequest_host Do
           (S fuel) (store_unhealthy s m') src w r
         = Some (h ← Listener_handle SplitHostPort IP_String Itoa
                       NewRequest_host Do l w r;
                 Done {| response := writer h; forwarded := sent h;
                         chosen := Some l;
                         server_after :=
                           with_algorithm (store_unhealthy s m') b';
                         source_after := src' |}))
      /\ (balancingAlgorithm s = WeightedRoundRobin -> weight l <= 0 ->
          Server_handle SplitHostPort IP_String Itoa NewRequest_host Do
            (S fuel) (store_unhealthy s m') src w r
          = Some (Panics "invalid argument to Intn"))
  | Some _ =>
      answered (Server_handle SplitHostPort IP_String Itoa NewRequest_host Do
                  fuel (store_unhealthy s m') src w r) = false
  end.
Proof.
  intros Hrun Hls Htask.
  pose proof (healthcheck_task_allocated IP_String Itoa NewRequest_host Do
                (unhealthyListeners s) l m' Htask) as Hmark.
  assert (Hun : unhealthy (store_unhealthy s m') (id_ l)
                = map_index m' (id_ l)) by (destruct m'; reflexivity).
  destruct (err (Listener_healthcheck IP_String Itoa NewRequest_host Do l).1)
    as [e|] eqn:Hv.
  - assert (H : answered (select_loop fuel (store_unhealthy s m')
                            (balancingAlgorithm s) src None) = false).
    { apply select_loop_never_answers.
      - simpl. rewrite Hls. discriminate.
      - simpl listeners. rewrite Hls. intros l0 Hin.
        apply list_elem_of_singleton in Hin as ->. now rewrite Hun.
      - discriminate. }
    unfold Server_handle. simpl stopped. simpl balancingAlgorithm.
    rewrite Hrun.
    destruct (select_loop fuel (store_unhealthy s m')
                (balancingAlgorithm s) src None)
      as [[[[[[l0|] b0] src0] | e0] | reason] |]; simpl in *;
      try reflexivity; discriminate H.
  - split.
    + intros Hb.
      destruct (call_single (balancingAlgorithm s) src l Hb)
        as (b' & src' & Hp).
      exists b', src'. unfold Server_handle. simpl stopped. rewrite Hrun.
      assert (Hsel : select_loop (S fuel) (store_unhealthy s m')
                       (balancingAlgorithm s) src None
                     = Some (Done (inl (Some l, b', src')))).
      { rewrite (select_loop_step _ fuel _ b' src src' None l eq_refl);
          [|simpl; rewrite Hls; exact Hp].
        apply select_loop_exit. now rewrite Hun. }
      simpl balancingAlgorithm. rewrite Hsel. reflexivity.
    + intros Halg Hw. unfold Server_handle. simpl stopped. rewrite Hrun.
      simpl balancingAlgorithm. rewrite Halg.
      rewrite (select_loop_panics _ fuel _ src None
                 "invalid argument to Intn" eq_refl); [reflexivity|].
      simpl listeners. rewrite Hls.
      now apply pickListener_WeightedRoundRobin_idle.
Qed.

Lemma probe_decides_dispatch_witness :
  let l := WithListenerHealthCheck 8082 "/health" 5 example_ready in
  let idle := WithWeight 0 example_ready in
  answered
    (Server_handle GoLib.SplitHostPort GoLib.IP_String GoLib.Itoa
       GoLib.NewRequest_host example_upstream 50
       (store_unhealthy (example_pool [l] (RoundRobin 0))
          (Some {[ id_ l := true ]}))
       (fun _ => 0) newResponseWriter (example_request "127.0.0.1:8080"))
  = false
  /\ Server_handle GoLib.SplitHostPort GoLib.IP_String GoLib.Itoa
       GoLib.NewRequest_host example_upstream 1
       (store_unhealthy (example_pool [idle] WeightedRoundRobin) (Some ∅))
       (fun _ => 0) newResponseWriter (example_request "127.0.0.1:8080")
     = Some (Panics "invalid argument to Intn").
Proof.
  intros l idle. split.
  - apply (probe_decides_dispatch GoLib.SplitHostPort GoLib.IP_String
             GoLib.Itoa GoLib.NewRequest_host example_upstream
             (example_pool [l] (RoundRobin 0)) l (Some {[ id_ l := true ]}) 50
             (fun _ => 0) newResponseWriter
             (example_request "127.0.0.1:8080")); reflexivity.
  - destruct (probe_decides_dispatch GoLib.SplitHostPort GoLib.IP_String
                GoLib.Itoa GoLib.NewRequest_host example_upstream
                (example_pool [idle] WeightedRoundRobin) idle (Some ∅) 0
                (fun _ => 0) newResponseWriter
                (example_request "127.0.0.1:8080")) as [_ H];
      [reflexivity | reflexivity | reflexivity |].
    apply H; [reflexivity | simpl; lia].
Defined.

(** ** NewServer *)

Lemma provided_server_config_fields (c : ServerConfig) (s : Struct.Server) :
  provided_server_config c ->
  Struct.listeners (c s) = Struct.listeners s
  /\ Struct.unhealthyListeners (c s) = Struct.unhealthyListeners s
  /\ Struct.ip (c s) = Struct.ip s
  /\ Struct.stopped (c s) = Struct.stopped s.
Proof. intros [b]. auto. Qed.

Lemma server_configs_fields (config : list ServerConfig) :
  Forall provided_server_config config ->
  forall s,
    let s' := fold_left (fun s c => c s) config s in
    Struct.listeners s' = Struct.listeners s
    /\ Struct.unhealthyListeners s' = Struct.unhealthyListeners s
    /\ Struct.ip s' = Struct.ip s
    /\ Struct.stopped s' = Struct.stopped s.
Proof.
  induction 1 as [| c config Hc _ IH]; intros s; simpl; [auto|].
  destruct (IH (c s)) as (-> & -> & -> & ->).
  now apply provided_server_config_fields.
Qed.

Lemma NewServer_inl SplitHostPort ParseIP addr config (s : Struct.Server) :
  NewServer SplitHostPort ParseIP addr config = inl s ->
  exists host portText parsedIp,
    SplitHostPort addr = Some (host, portText)
    /\ ParseIP host = Some parsedIp
    /\ exists s0,
         s0 = fold_left (fun s c => c s) config
                {| Struct.listeners := []; Struct.unhealthyListeners := None;
                   Struct.ip := parsedIp; Struct.stopped := false;
                   Struct.balancingAlgorithm := None |}
         /\ s = match Struct.balancingAlgorithm s0 with
                | None =>
                    WithBalancingAlgorithm (Some DefaultBalancingAlgorithm) s0
                | Some _ => s0
                end.
Proof.
  unfold NewServer.
  destruct (SplitHostPort addr) as [[host portText]|]; [|discriminate].
  destruct (ParseIP host) as [parsedIp|] eqn:Hip; [|discriminate].
  intros [= <-]. exists host, portText, parsedIp. eauto.
Qed.

(** A server as [NewServer] returns it: no listener, not stopped, the IP of
    the address, a nil map of unhealthy listeners and an algorithm that is
    never nil (the default, uniform-random, without options).  Every request
    to it is answered 503 after one selection attempt, and [Stop] on it
    returns nil at once. *)
Theorem NewServer_fresh SplitHostPort ParseIP
    SplitHostPort' IP_String Itoa NewRequest_host Do
    (addr : string) (config : list ServerConfig) (s : Struct.Server)
    (fuel : nat) (src : Source) (w : ResponseWriter) (r : Request) :
  Forall provided_server_config config ->
  NewServer SplitHostPort ParseIP addr config = inl s ->
  Struct.listeners s = [] /\ Struct.stopped s = false
  /\ Struct.unhealthyListeners s = None
  /\ (exists host portText,
        SplitHostPort addr = Some (host, portText)
        /\ ParseIP host = Some (Struct.ip s))
  /\ (config = [] -> Struct.balancingAlgorithm s = Some Random)
  /\ exists sv,
       dispatching s = Some sv
       /\ Server_handle SplitHostPort' IP_String Itoa NewRequest_host Do
            (S fuel) sv src w r
          = Some (Done {| response := http_Error w "load balancer internal error"
                                        StatusServiceUnavailable;
                          forwarded := []; chosen := None;
                          server_after := sv; source_after := src |})
       /\ Stop sv = {| server := store_stopped sv true; drained := [];
                       ending := StopReturns None |}.
Proof.
  intros Hc Hnew.
  apply NewServer_inl in Hnew
    as (host & portText & parsedIp & Hs & Hip & s0 & Hs0 & ->).
  destruct (server_configs_fields config Hc
              {| Struct.listeners := []; Struct.unhealthyListeners := None;
                 Struct.ip := parsedIp; Struct.stopped := false;
                 Struct.balancingAlgorithm := None |})
    as (Hl & Hu & Hi & Hst).
  rewrite <- Hs0 in Hl, Hu, Hi, Hst. simpl in Hl, Hu, Hi, Hst.
  assert (Hfields :
    forall s1, Struct.listeners s1 = [] -> Struct.stopped s1 = false ->
      Struct.unhealthyListeners s1 = None -> Struct.ip s1 = parsedIp ->
      forall b, Struct.balancingAlgorithm s1 = Some b ->
      Struct.listeners s1 = [] /\ Struct.stopped s1 = false
      /\ Struct.unhealthyListeners s1 = None
      /\ (exists host portText,
            SplitHostPort addr = Some (host, portText)
            /\ ParseIP host = Some (Struct.ip s1))
      /\ exists sv,
           dispatching s1 = Some sv
           /\ Server_handle SplitHostPort' IP_String Itoa NewRequest_host Do
                (S fuel) sv src w r
              = Some (Done {| response :=
                                http_Error w "load balancer internal error"
                                  StatusServiceUnavailable;
                              forwarded := []; chosen := None;
                              server_after := sv; source_after := src |})
           /\ Stop sv = {| server := store_stopped sv true; drained := [];
                           ending := StopReturns None |}).
  { intros s1 H1 H2 H3 H4 b Hb. repeat split; auto.
    - exists host, portText. rewrite H4. auto.
    - unfold dispatching. rewrite Hb. eexists. split; [reflexivity|]. split.
      + apply Server_handle_no_listeners; simpl; assumption.
      + unfold Stop. simpl. rewrite H2, H1. reflexivity. }
  destruct (Struct.balancingAlgorithm s0) as [b|] eqn:Hb.
  - destruct (Hfields s0 Hl Hst Hu Hi b Hb) as (A & B & C & D & E).
    repeat split; auto. intros ->. simpl in Hs0. subst s0. discriminate.
  - destruct (Hfields (WithBalancingAlgorithm (Some DefaultBalancingAlgorithm) s0)
                Hl Hst Hu Hi Random eq_refl) as (A & B & C & D & E).
    repeat split; auto.
Qed.

Lemma NewServer_fresh_witness :
  let s := {| Struct.listeners := []; Struct.unhealthyListeners := None;
              Struct.ip := default [] (GoLib.ParseIP "127.0.0.1");
              Struct.stopped := false;
              Struct.balancingAlgorithm := Some Random |} in
  NewServer GoLib.SplitHostPort GoLib.ParseIP "127.0.0.1:8080" [] = inl s
  /\ exists sv,
       dispatching s = Some sv
       /\ Stop sv = {| server := store_stopped sv true; drained := [];
                       ending := StopReturns None |}.
Proof.
  intros s. split; [reflexivity|].
  destruct (NewServer_fresh GoLib.SplitHostPort GoLib.ParseIP
              GoLib.SplitHostPort GoLib.IP_String GoLib.Itoa
              GoLib.NewRequest_host example_upstream "127.0.0.1:8080" []
              s 0%nat (fun _ => 0) newResponseWriter
              (example_request "127.0.0.1:8080"))
    as (_ & _ & _ & _ & _ & sv & Hd & _ & Hstop).
  - constructor.
  - reflexivity.
  - exists sv. split; [exact Hd | exact Hstop].
Defined.

(** [NewServer] succeeds exactly when the address splits into host and port
    and the host is an IP address: unlike [NewListener] it never looks at
    the port.  Its error is always an [ErrServerCreate].  Options are
    applied in order: the algorithm is the one of the last
    [WithBalancingAlgorithm], the default when that one is nil. *)
Theorem NewServer_succeeds_iff SplitHostPort ParseIP
    (addr : string) (config : list ServerConfig)
    (b : option BalancingAlgorithm) :
  ((exists s, NewServer SplitHostPort ParseIP addr config = inl s)
   <-> (exists host portText parsedIp,
          SplitHostPort addr = Some (host, portText)
          /\ ParseIP host = Some parsedIp))
  /\ (forall e, NewServer SplitHostPort ParseIP addr config = inr e ->
                exists reason, e = ErrServerCreate reason)
  /\ (forall s,
        NewServer SplitHostPort ParseIP addr
          (config ++ [WithBalancingAlgorithm b]) = inl s ->
        Struct.balancingAlgorithm s
        = Some (default DefaultBalancingAlgorithm b)).
Proof.
  split; [|split].
  - unfold NewServer.
    destruct (SplitHostPort addr) as [[host portText]|] eqn:Hs.
    + destruct (ParseIP host) as [parsedIp|] eqn:Hi.
      * split; eauto 10.
      * split; [intros [s0 H]; discriminate|].
        intros (h & p & i & [= <- <-] & H). congruence.
    + split; [intros [s0 H]; discriminate|].
      intros (h & p & i & H & _). discriminate.
  - unfold NewServer.
    destruct (SplitHostPort addr) as [[host portText]|]; [|intros e [= <-]; eauto].
    destruct (ParseIP host); [discriminate | intros e [= <-]; eauto].
  - intros s Hnew.
    apply NewServer_inl in Hnew as (_ & _ & ip0 & _ & _ & s0 & -> & ->).
    rewrite fold_left_app. simpl. destruct b; reflexivity.
Qed.

(** ** Start *)

Lemma Start_loop_returns (observe : nat -> Server) (n : nat) :
  forall fuel k,
    (n <= fuel)%nat ->
    (forall j, (j < n)%nat -> stopped (observe (k + 2 * j)%nat) = false) ->
    stopped (observe (k + 2 * n)%nat) = true ->
    Start_loop fuel observe k
    = Some ((fun j => Server_healthcheck (observe (k + 2 * j + 1)%nat))
              <$> seq 0 n).
Proof.
  induction n as [| n IH]; intros fuel k Hfuel Hrun Hstop.
  - replace (k + 2 * 0)%nat with k in Hstop by lia.
    destruct fuel; simpl; rewrite Hstop; reflexivity.
  - destruct fuel as [| fuel]; [lia|].
    pose proof (Hrun O ltac:(lia)) as H0.
    replace (k + 2 * 0)%nat with k in H0 by lia.
    simpl Start_loop. rewrite H0. simpl negb. cbv iota.
    rewrite (IH fuel (S (S k))); [| lia | |].
    + simpl. f_equal. f_equal; [f_equal; f_equal; lia|].
      rewrite <- fmap_S_seq, <- list_fmap_compose.
      apply list_fmap_ext. intros _ j _. simpl. f_equal. f_equal. lia.
    + intros j Hj. replace (S (S k) + 2 * j)%nat with (k + 2 * S j)%nat by lia.
      apply Hrun. lia.
    + replace (S (S k) + 2 * n)%nat with (k + 2 * S n)%nat by lia. exact Hstop.
Qed.

Lemma Start_loop_inv (observe : nat -> Server) (fuel : nat) :
  forall k rs,
    Start_loop fuel observe k = Some rs ->
    stopped (observe (k + 2 * length rs)%nat) = true
    /\ forall j, (j < length rs)%nat ->
         stopped (observe (k + 2 * j)%nat) = false
         /\ rs !! j = Some (Server_healthcheck (observe (k + 2 * j + 1)%nat)).
Proof.
  assert (Hdone : forall k, stopped (observe k) = true ->
            stopped (observe (k + 2 * length (@nil (list Listener)))%nat) = true
            /\ forall j, (j < length (@nil (list Listener)))%nat ->
                 stopped (observe (k + 2 * j)%nat) = false
                 /\ @nil (list Listener) !! j
                    = Some (Server_healthcheck (observe (k + 2 * j + 1)%nat))).
  { intros k E. split.
    - replace (k + 2 * length (@nil (list Listener)))%nat with k
        by (simpl; lia). exact E.
    - intros j Hj. simpl in Hj. lia. }
  induction fuel as [| fuel IH]; intros k rs Hs; simpl in Hs.
  - destruct (stopped (observe k)) eqn:E; simpl in Hs; [|discriminate].
    injection Hs as <-. now apply Hdone.
  - destruct (stopped (observe k)) eqn:E; simpl in Hs.
    + injection Hs as <-. now apply Hdone.
    + destruct (Start_loop fuel observe (S (S k))) as [rest|] eqn:Hrest;
        simpl in Hs; [|discriminate].
      injection Hs as <-. destruct (IH _ _ Hrest) as [Hstop Hrounds]. split.
      * replace (k + 2 * length (Server_healthcheck (observe (S k)) :: rest))%nat
          with (S (S k) + 2 * length rest)%nat by (simpl; lia). exact Hstop.
      * intros [| j] Hj.
        -- replace (k + 2 * 0)%nat with k by lia.
           replace (k + 1)%nat with (S k) by lia. auto.
        -- destruct (Hrounds j ltac:(simpl in Hj; lia)) as [Hr Hl].
           replace (k + 2 * S j)%nat with (S (S k) + 2 * j)%nat by lia. auto.
Qed.

(** [Start] returns only once it has read the stopped flag as set.  Read as
    set by the very first check, it returns [ErrServerStopped] and no probe
    round was run; read as set by the loop check after [n] rounds, it
    returns nil, and before each of the [n] sleeps it started one probe per
    listener registered at that moment. *)
Theorem Start_returns_only_stopped (fuel : nat) (observe : nat -> Server)
    (st : Started) :
  Start fuel observe = Some st ->
  (stopped (observe O) = true
   /\ st = {| rounds := []; start_error := Some ErrServerStopped |})
  \/ (stopped (observe O) = false
      /\ start_error st = None
      /\ stopped (observe (2 * length (rounds st) + 1)%nat) = true
      /\ forall j, (j < length (rounds st))%nat ->
           stopped (observe (2 * j + 1)%nat) = false
           /\ rounds st !! j
              = Some (Server_healthcheck (observe (2 * j + 2)%nat))).
Proof.
  intros Hs. unfold Start in Hs. destruct (stopped (observe O)) eqn:E.
  - injection Hs as <-. left. auto.
  - destruct (Start_loop fuel observe 1) as [rs|] eqn:Hrs; simpl in Hs;
      [|discriminate].
    injection Hs as <-. right. cbn [rounds start_error].
    destruct (Start_loop_inv observe fuel 1 rs Hrs) as [Hstop Hrounds].
    split; [reflexivity | split; [reflexivity | split]].
    + replace (2 * length rs + 1)%nat with (1 + 2 * length rs)%nat by lia.
      exact Hstop.
    + intros j Hj. destruct (Hrounds j Hj) as [Hr Hl].
      replace (2 * j + 1)%nat with (1 + 2 * j)%nat by lia.
      replace (2 * j + 2)%nat with (1 + 2 * j + 1)%nat by lia. auto.
Qed.

Lemma Start_returns_only_stopped_witness :
  let running := example_pool [example_ready] Random in
  let observe := fun k => if (k <? 5)%nat then running
                          else store_stopped running true in
  Start 10 observe
  = Some {| rounds := [[example_ready]; [example_ready]];
            start_error := None |}
  /\ stopped (observe (2 * 2 + 1)%nat) = true.
Proof.
  intros running observe. split; [reflexivity|].
  destruct (Start_returns_only_stopped 10 observe
              {| rounds := [[example_ready]; [example_ready]];
                 start_error := None |})
    as [[H _] | (_ & _ & H & _)].
  - reflexivity.
  - discriminate H.
  - exact H.
Defined.

(** [Start] does return once the flag is set: if the flag reads as not set
    at the first check and at the first [n] loop checks, and as set at the
    next one, [Start] returns nil after exactly [n] probe rounds, given
    fuel for [n] iterations. *)
Theorem Start_returns_after (fuel n : nat) (observe : nat -> Server) :
  (n <= fuel)%nat ->
  stopped (observe O) = false ->
  (forall j, (j < n)%nat -> stopped (observe (2 * j + 1)%nat) = false) ->
  stopped (observe (2 * n + 1)%nat) = true ->
  Start fuel observe
  = Some {| rounds := (fun j => Server_healthcheck (observe (2 * j + 2)%nat))
                        <$> seq 0 n;
            start_error := None |}.
Proof.
  intros Hfuel H0 Hrun Hstop. unfold Start. rewrite H0.
  rewrite (Start_loop_returns observe n fuel 1 Hfuel).
  - simpl. do 2 f_equal. apply list_fmap_ext. intros _ j _.
    do 2 f_equal. lia.
  - intros j Hj. replace (1 + 2 * j)%nat with (2 * j + 1)%nat by lia. auto.
  - replace (1 + 2 * n)%nat with (2 * n + 1)%nat by lia. exact Hstop.
Qed.

Lemma Start_returns_after_witness :
  let running := example_pool [example_ready] Random in
  let observe := fun k => if (k <? 5)%nat then running
                          else store_stopped running true in
  Start 2 observe
  = Some {| rounds := (fun j => Server_healthcheck (observe (2 * j + 2)%nat))
                        <$> seq 0 2;
            start_error := None |}.
Proof.
  intros running observe.
  apply (Start_returns_after 2 2 observe).
  - lia.
  - reflexivity.
  - intros j Hj. destruct j as [| [| j]]; [reflexivity | reflexivity | lia].
  - reflexivity.
Defined.
